(** * Presubmit CL sender: a shallow embedding of [presubmit/clssender.go]

    The Go file groups related change lists (CLs), decides for each group
    whether presubmit tests are skipped or started, and drives the CI system
    through the [workflow] interface.  Below, the Go code is transcribed
    function by function; the interaction with the CI system and the two
    output streams are recorded as a trace of events, in program order. *)

From Stdlib Require Import ZArith String Ascii List Lia.
From stdpp Require Import base gmap strings pretty list.

Local Open Scope string_scope.
Local Open Scope list_scope.
Local Open Scope Z_scope.

(** ** The pieces of the Go runtime and standard library the file uses *)

Module GoLib.

(** Go's [int] on the 64-bit targets the tool is built for: a signed
    64-bit integer; arithmetic wraps around silently. *)
Definition int_min : Z := - 2 ^ 63.
Definition int_max : Z := 2 ^ 63 - 1.
Definition int_wrap (z : Z) : Z := (z + 2 ^ 63) mod 2 ^ 64 - 2 ^ 63.
Definition int_add (a b : Z) : Z := int_wrap (a + b).

(** [len] of a slice, as an [int]. *)
Definition len {A} (l : list A) : Z := Z.of_nat (length l).

(** The line feed written by [Println] and by a trailing "\n". *)
Definition nl : string := String (ascii_of_nat 10) EmptyString.

(** [s[n:]] on a string: the bytes from index [n] on. *)
Fixpoint slice_from (n : nat) (s : string) : string :=
  match n, s with
  | O, _ => s
  | S n', String _ s' => slice_from n' s'
  | S _, EmptyString => EmptyString
  end.

(** [strings.HasSuffix]:
    [len(s) >= len(suffix) && s[len(s)-len(suffix):] == suffix]. *)
Definition HasSuffix (s suffix : string) : bool :=
  (String.length suffix <=? String.length s)%nat
  && String.eqb (slice_from (String.length s - String.length suffix) s) suffix.

(** [strings.Join]: nothing for no element, else the first element and
    then, for each further one, the separator and the element. *)
Fixpoint Join_rest (elems : list string) (sep : string) : string :=
  match elems with
  | [] => ""
  | s :: rest => sep +:+ s +:+ Join_rest rest sep
  end.

Definition Join (elems : list string) (sep : string) : string :=
  match elems with
  | [] => ""
  | first :: rest => first +:+ Join_rest rest sep
  end.

(** The verb [%d] of [fmt] on an [int]: decimal digits, with a leading
    minus sign for a negative number. *)
Definition fmt_d (z : Z) : string := pretty z.

(** A non-nil value of the interface [error], seen through its only
    method, [Error() string]; a nil [error] is [None] of [option error]. *)
Record error := { Error : string }.

(** A Go map value: [None] is the nil map, [Some m] a map that was made.
    [len] of the nil map is 0. *)
Definition GoMap := option (gmap Z Z).

Definition len_map (m : GoMap) : Z :=
  match m with
  | None => 0
  | Some g => Z.of_nat (size g)
  end.

(** [m[k] = v].  A store into the nil map panics; the program only
    stores into a map it has made (see [store_all_made]), so that
    case is never reached and is left as the nil map here. *)
Definition map_store (k v : Z) (m : GoMap) : GoMap :=
  match m with
  | None => None
  | Some g => Some (<[k := v]> g)
  end.

End GoLib.

Import GoLib.

(** ** Trust policy and label formatting (pure functions of the file) *)

(** [isTrustedContributor], clssender.go line 150. *)
Definition isTrustedContributor (emailAddress : string) : bool :=
  HasSuffix emailAddress "@google.com".

(** [formatCLString], clssender.go line 156: [Sprintf("%d/%d", ...)]. *)
Definition formatCLString (clNumber patchsetNumber : Z) : string :=
  fmt_d clNumber +:+ "/" +:+ fmt_d patchsetNumber.

(** ** The package [v.io/jiri/gerrit], as far as the file uses it

    The package is an import, not part of this program: the type of the
    presubmit directive, its constant [PresubmitTestTypeNone] and the
    reference parser are parameters.  [ParseRefString] returns Go's triple
    [(cl, patchset, err)]. *)

Class Gerrit := {
  PresubmitTestType : Type;
  PresubmitTestType_eq_dec :: EqDecision PresubmitTestType;
  PresubmitTestTypeNone : PresubmitTestType;
  ParseRefString : string -> Z * Z * option error
}.

(** [gerrit.Change], through the two methods and the field that are read. *)
Record Change `{Gerrit} := {
  Reference : string;
  OwnerEmail : string;
  PresubmitTest : PresubmitTestType
}.

(** [gerrit.CLList] is [[]Change]. *)
Definition CLList `{Gerrit} : Type := list Change.

(** ** Events: what the program writes and what it asks of the CI system *)

Inductive event `{Gerrit} : Type :=
| EvStdout (text : string)
| EvStderr (text : string)
| EvListTestsToRun (testNames : list string)
| EvRemoveOutdatedBuilds (validCLs : GoMap) (errs : list (option error))
| EvAddPresubmitTestBuild (cls : CLList) (testNames : list string)
                          (err : option error)
| EvPostResults (message : string) (clRefs : list string) (verified : bool)
                (err : option error).

(** The calls through the [workflow] interface are the events that are not
    output. *)
Definition is_call `{Gerrit} (e : event) : bool :=
  match e with
  | EvStdout _ | EvStderr _ => false
  | _ => true
  end.

Definition calls `{Gerrit} (t : list event) : list event := List.filter is_call t.

(** ** The interface [workflow], clssender.go lines 19-33

    An implementation has a state of its own, of type [W]; each method
    returns its result and the implementation's next state. *)

Class workflow `{Gerrit} (W : Type) := {
  listTestsToRun : W -> list string * W;
  removeOutdatedBuilds : GoMap -> W -> list (option error) * W;
  addPresubmitTestBuild : CLList -> list string -> W -> option error * W;
  postResults : string -> list string -> bool -> W -> option error * W
}.

(** [clsSender], clssender.go lines 38-42. *)
Record clsSender `{Gerrit} (W : Type) := {
  clLists : list CLList;
  clsSent : Z;
  worker : W
}.
Arguments clLists {_ _} _.
Arguments clsSent {_ _} _.
Arguments worker {_ _} _.

(** [multiPartCLInfo], clssender.go lines 104-110. *)
Record multiPartCLInfo := {
  clMap : GoMap;
  clString : string;
  skipPresubmitTest : bool;
  hasTrustedOwner : bool;
  refs : list string
}.

(** [multiPartCLInfo{}]: every field at its zero value. *)
Definition multiPartCLInfo_zero : multiPartCLInfo :=
  {| clMap := None; clString := ""; skipPresubmitTest := false;
     hasTrustedOwner := false; refs := [] |}.

Definition set_clMap (f : GoMap -> GoMap) (r : multiPartCLInfo) :=
  {| clMap := f (clMap r); clString := clString r;
     skipPresubmitTest := skipPresubmitTest r;
     hasTrustedOwner := hasTrustedOwner r; refs := refs r |}.
Definition set_clString (v : string) (r : multiPartCLInfo) :=
  {| clMap := clMap r; clString := v;
     skipPresubmitTest := skipPresubmitTest r;
     hasTrustedOwner := hasTrustedOwner r; refs := refs r |}.
Definition set_skipPresubmitTest (v : bool) (r : multiPartCLInfo) :=
  {| clMap := clMap r; clString := clString r; skipPresubmitTest := v;
     hasTrustedOwner := hasTrustedOwner r; refs := refs r |}.
Definition set_hasTrustedOwner (v : bool) (r : multiPartCLInfo) :=
  {| clMap := clMap r; clString := clString r;
     skipPresubmitTest := skipPresubmitTest r;
     hasTrustedOwner := v; refs := refs r |}.
Definition set_refs (f : list string -> list string) (r : multiPartCLInfo) :=
  {| clMap := clMap r; clString := clString r;
     skipPresubmitTest := skipPresubmitTest r;
     hasTrustedOwner := hasTrustedOwner r; refs := f (refs r) |}.

(** ** [combineCLList], clssender.go lines 113-144 *)

Section Combine.
Context `{Gerrit}.

(** The range loop of lines 119-140 followed by lines 142-143, on the
    records still to visit, with the locals [result] and [clStrings].
    The function writes to standard error when it gives up. *)
Fixpoint combine_loop (curCLList : CLList) (result : multiPartCLInfo)
    (clStrings : list string) : multiPartCLInfo * list event :=
  match curCLList with
  | [] => (set_clString (Join clStrings ", ") result, [])
  | curCL :: rest =>
      let '(cl, ps, err) := ParseRefString (Reference curCL) in
      match err with
      | Some e => (multiPartCLInfo_zero, [EvStderr (Error e +:+ nl)])
      | None =>
          let result :=
            if decide (PresubmitTest curCL = PresubmitTestTypeNone)
            then set_skipPresubmitTest true result else result in
          let result :=
            if negb (isTrustedContributor (OwnerEmail curCL))
            then set_hasTrustedOwner false result else result in
          let clStrings := clStrings ++ [formatCLString cl ps] in
          let result := set_clMap (map_store cl ps) result in
          let result := set_refs (fun r => r ++ [Reference curCL]) result in
          combine_loop rest result clStrings
      end
  end.

Definition combineCLList (curCLList : CLList) : multiPartCLInfo * list event :=
  let result := multiPartCLInfo_zero in
  let result := set_hasTrustedOwner true result in
  let result := set_clMap (fun _ => Some ∅) result in
  let clStrings := [] in
  combine_loop curCLList result clStrings.

End Combine.

(** ** Running a method of [clsSender]

    A computation of the sender reads and updates the sender (its counter
    and the state of its worker) and emits events: it is a function from
    the sender to a result, the sender afterwards and the events emitted,
    oldest first. *)

Definition M `{Gerrit} (W A : Type) : Type :=
  clsSender W -> A * clsSender W * list event.

Definition ret `{Gerrit} {W A} (a : A) : M W A := fun s => (a, s, []).

Definition bind `{Gerrit} {W A B} (m : M W A) (k : A -> M W B) : M W B :=
  fun s =>
    let '(a, s1, t1) := m s in
    let '(b, s2, t2) := k a s1 in
    (b, s2, t1 ++ t2).

Declare Scope sender_scope.
Delimit Scope sender_scope with sender.
Notation "'do' x <- m ; k" := (bind m (fun x => k))
  (at level 10, x name, m at level 100, k at level 200) : sender_scope.
Notation "'do_' m ; k" := (bind m (fun _ => k))
  (at level 10, m at level 100, k at level 200) : sender_scope.

Section Sender.
Context `{Gerrit} {W : Type} `{!workflow W}.

Local Open Scope sender_scope.

(** Output: [fmt.Println]/[fmt.Printf] write to standard output,
    [fmt.Fprintln(os.Stderr, ...)]/[fmt.Fprintf(os.Stderr, ...)] to
    standard error. *)
Definition stdout (text : string) : M W unit :=
  fun s => (tt, s, [EvStdout text]).
Definition stderr (text : string) : M W unit :=
  fun s => (tt, s, [EvStderr text]).

(** A call of a function that only writes output. *)
Definition run_out {A} (p : A * list event) : M W A :=
  fun s => (p.1, s, p.2).

Definition with_worker (s : clsSender W) (w : W) : clsSender W :=
  {| clLists := clLists s; clsSent := clsSent s; worker := w |}.

(** The four calls [s.worker.m(...)]. *)
Definition call_listTestsToRun : M W (list string) :=
  fun s =>
    let '(tests, w) := listTestsToRun (worker s) in
    (tests, with_worker s w, [EvListTestsToRun tests]).

Definition call_removeOutdatedBuilds (validCLs : GoMap)
    : M W (list (option error)) :=
  fun s =>
    let '(errs, w) := removeOutdatedBuilds validCLs (worker s) in
    (errs, with_worker s w, [EvRemoveOutdatedBuilds validCLs errs]).

Definition call_addPresubmitTestBuild (cls : CLList) (testNames : list string)
    : M W (option error) :=
  fun s =>
    let '(err, w) := addPresubmitTestBuild cls testNames (worker s) in
    (err, with_worker s w, [EvAddPresubmitTestBuild cls testNames err]).

Definition call_postResults (message : string) (clRefs : list string)
    (verified : bool) : M W (option error) :=
  fun s =>
    let '(err, w) := postResults message clRefs verified (worker s) in
    (err, with_worker s w, [EvPostResults message clRefs verified err]).

(** [s.clsSent += n], on Go's [int]. *)
Definition add_clsSent (n : Z) : M W unit :=
  fun s =>
    (tt, {| clLists := clLists s; clsSent := int_add (clsSent s) n;
            worker := worker s |}, []).

(** Lines 84-88: the errors of [removeOutdatedBuilds] that are not nil
    are printed to standard error, one per line, in order. *)
Fixpoint log_errors (errs : list (option error)) : M W unit :=
  match errs with
  | [] => ret tt
  | None :: rest => log_errors rest
  | Some err :: rest => do_ stderr (Error err +:+ nl); log_errors rest
  end.

(** How one pass through the body of the loop of line 46 ends: with
    [continue] (or by reaching the end of the body), or with
    [return err]. *)
Inductive flow := Continue | Return (err : error).

(** [if err := post(...); err != nil { return err }; continue] *)
Definition return_if_error (err : option error) : flow :=
  match err with
  | Some e => Return e
  | None => Continue
  end.

(** The body of the loop, lines 47-96, for one [curCLList]. *)
Definition sendCLsToPresubmitTest_body (curCLList : CLList) : M W flow :=
  do cls <- run_out (combineCLList curCLList);
  if len_map (clMap cls) =? 0 then
    do_ stdout ("Skipping empty CL set" +:+ nl);
    ret Continue
  else if skipPresubmitTest cls then
    do_ stdout ("Skipping " +:+ clString cls +:+ " because presubmit=none" +:+ nl);
    do err <- call_postResults ("Presubmit tests skipped." +:+ nl) (refs cls) true;
    ret (return_if_error err)
  else
    do tests <- call_listTestsToRun;
    if len tests =? 0 then
      do_ stdout ("Skipping " +:+ clString cls +:+ " because no tests found" +:+ nl);
      do err <- call_postResults ("No tests found." +:+ nl) (refs cls) true;
      ret (return_if_error err)
    else if negb (hasTrustedOwner cls) then
      do_ stdout ("Skipping " +:+ clString cls
                  +:+ " because the owner is an external contributor" +:+ nl);
      do err <- call_postResults
                  ("Tell Freenode#fuchsia to kick the presubmit tests." +:+ nl)
                  (refs cls) false;
      ret (return_if_error err)
    else
      do errs <- call_removeOutdatedBuilds (clMap cls);
      do_ log_errors errs;
      do_ stdout ("Sending " +:+ clString cls +:+ " to presubmit test" +:+ nl);
      do err <- call_addPresubmitTestBuild curCLList tests;
      do_ match err with
          | Some e => stderr ("addPresubmitTestBuild failed: " +:+ Error e +:+ nl)
          | None => add_clsSent (len curCLList)
          end;
      ret Continue.

(** The loop of line 46 over the lists still to visit, and line 98. *)
Fixpoint sendCLsToPresubmitTest_loop (lists : list CLList)
    : M W (option error) :=
  match lists with
  | [] => ret None
  | curCLList :: rest =>
      do f <- sendCLsToPresubmitTest_body curCLList;
      match f with
      | Return err => ret (Some err)
      | Continue => sendCLsToPresubmitTest_loop rest
      end
  end.

(** [sendCLsToPresubmitTest], clssender.go lines 45-99. *)
Definition sendCLsToPresubmitTest : M W (option error) :=
  fun s => sendCLsToPresubmitTest_loop (clLists s) s.

End Sender.

(** ** Vocabulary for the statements *)

(** No byte of the string is the slash that separates change and patchset
    in a label. *)
Fixpoint slash_free (s : string) : bool :=
  match s with
  | EmptyString => true
  | String a rest => negb (Ascii.eqb a "/") && slash_free rest
  end.

Section Vocabulary.
Context `{Gerrit}.

(** The reference of a record parses: [ParseRefString] returns a nil
    error for it. *)
Definition parses (c : Change) : bool :=
  match (ParseRefString (Reference c)).2 with
  | None => true
  | Some _ => false
  end.

Definition all_parse (l : CLList) : bool := forallb parses l.

(** The record carries the directive [PresubmitTestTypeNone]. *)
Definition declares_skip (c : Change) : bool :=
  bool_decide (PresubmitTest c = PresubmitTestTypeNone).

Definition trusted_owner (c : Change) : bool :=
  isTrustedContributor (OwnerEmail c).

(** The parsed identity of a record and its "change/patchset" label. *)
Definition identity (c : Change) : Z * Z := (ParseRefString (Reference c)).1.

Definition label (c : Change) : string :=
  formatCLString (identity c).1 (identity c).2.

(** The map after storing the identities of the records, in order. *)
Definition store_all (l : CLList) (m : GoMap) : GoMap :=
  fold_left (fun m c => map_store (identity c).1 (identity c).2 m) l m.

(** The group [combineCLList] builds from records that all parse. *)
Definition combined (l : CLList) : multiPartCLInfo :=
  {| clMap := store_all l (Some ∅);
     clString := Join (map label l) ", ";
     skipPresubmitTest := existsb declares_skip l;
     hasTrustedOwner := forallb trusted_owner l;
     refs := map Reference l |}.

(** The first error [ParseRefString] reports along a list, if any. *)
Fixpoint first_parse_error (l : CLList) : option error :=
  match l with
  | [] => None
  | c :: rest =>
      match (ParseRefString (Reference c)).2 with
      | Some e => Some e
      | None => first_parse_error rest
      end
  end.

(** The lines [log_errors] writes. *)
Definition logged (errs : list (option error)) : list event :=
  map (fun e => EvStderr (Error e +:+ nl)) (omap id errs).

Definition is_listTestsToRun (e : event) : bool :=
  match e with EvListTestsToRun _ => true | _ => false end.

(** How many times a trace asks for the tests to run. *)
Definition count_listTestsToRun (t : list event) : nat :=
  length (List.filter is_listTestsToRun t).

Definition is_postResults (e : event) : bool :=
  match e with EvPostResults _ _ _ _ => true | _ => false end.

(** A call of [postResults] that returned an error. *)
Definition failed_post (e : event) : option error :=
  match e with EvPostResults _ _ _ (Some err) => Some err | _ => None end.

(** The errors returned by the calls of [postResults] in a trace. *)
Definition failed_posts (t : list event) : list error := omap failed_post t.

(** The outcomes of the decision for one group (the five branches of
    the loop body), and what the calls to the CI system look like for
    each of them, for the group [g] combined from [curCLList]. *)
Inductive outcome :=
| skip_empty
| skip_by_author_request
| skip_no_tests
| skip_untrusted
| proceed.

Definition exhibits (g : multiPartCLInfo) (curCLList : CLList)
    (d : outcome) (t : list event) : Prop :=
  match d with
  | skip_empty => calls t = []
  | skip_by_author_request =>
      exists err,
        calls t = [EvPostResults ("Presubmit tests skipped." +:+ nl)
                     (refs g) true err]
  | skip_no_tests =>
      exists err,
        calls t = [EvListTestsToRun [];
                   EvPostResults ("No tests found." +:+ nl) (refs g) true err]
  | skip_untrusted =>
      exists tests err,
        tests <> [] /\
        calls t = [EvListTestsToRun tests;
                   EvPostResults
                     ("Tell Freenode#fuchsia to kick the presubmit tests." +:+ nl)
                     (refs g) false err]
  | proceed =>
      exists tests errs err,
        tests <> [] /\
        calls t = [EvListTestsToRun tests;
                   EvRemoveOutdatedBuilds (clMap g) errs;
                   EvAddPresubmitTestBuild curCLList tests err]
  end.

(** The patchset stored last for the change number [k] along a list of
    records: that of the last record with that change number. *)
Fixpoint last_patchset (l : CLList) (k : Z) : option Z :=
  match l with
  | [] => None
  | c :: rest =>
      match last_patchset rest k with
      | Some p => Some p
      | None =>
          if decide ((identity c).1 = k) then Some (identity c).2 else None
      end
  end.

Definition is_addPresubmitTestBuild (e : event) : bool :=
  match e with EvAddPresubmitTestBuild _ _ _ => true | _ => false end.

(** The number of records handed to [addPresubmitTestBuild] by the calls
    of a trace that returned nil. *)
Definition records_sent_by (e : event) : Z :=
  match e with
  | EvAddPresubmitTestBuild cls _ None => len cls
  | _ => 0
  end.

Fixpoint records_sent (t : list event) : Z :=
  match t with
  | [] => 0
  | e :: rest => records_sent_by e + records_sent rest
  end.

End Vocabulary.

Section SenderVocabulary.
Context `{Gerrit} {W : Type} `{!workflow W}.

(** The sender after lines 92-96, given what [addPresubmitTestBuild]
    returned and the worker it left. *)
Definition after_add (l : CLList) (s : clsSender W) (err : option error)
    (w : W) : clsSender W :=
  {| clLists := clLists s;
     clsSent := match err with
                | Some _ => clsSent s
                | None => int_add (clsSent s) (len l)
                end;
     worker := w |}.

(** The line of line 93, when there is one. *)
Definition add_failure_line (err : option error) : list event :=
  match err with
  | Some e => [EvStderr ("addPresubmitTestBuild failed: " +:+ Error e +:+ nl)]
  | None => []
  end.

(** The result, the sender afterwards and the trace of a computation. *)
Definition result_of {A} (r : A * clsSender W * list event) : A := r.1.1.
Definition sender_of {A} (r : A * clsSender W * list event) : clsSender W := r.1.2.
Definition trace_of {A} (r : A * clsSender W * list event) : list event := r.2.

(** The loop goes on with [rest] after a pass that ended in [s1] with
    trace [t1]. *)
Definition then_loop (s1 : clsSender W) (t1 : list event) (rest : list CLList)
    : option error * clsSender W * list event :=
  let '(r, s2, t2) := sendCLsToPresubmitTest_loop rest s1 in
  (r, s2, t1 ++ t2).

End SenderVocabulary.

(** ** A small instance to run the program on

    A reference parser that knows a handful of references, and a worker
    that answers from a script. *)

Module Demo.

Definition bad_ref : error := {| Error := "unexpected number of parts" |}.

#[export] Instance gerrit : Gerrit := {|
  PresubmitTestType := string;
  PresubmitTestTypeNone := "none";
  ParseRefString ref :=
    if String.eqb ref "refs/changes/01/1/5" then (1, 5, None)
    else if String.eqb ref "refs/changes/02/2/7" then (2, 7, None)
    else if String.eqb ref "refs/changes/03/3/1" then (3, 1, None)
    else (-1, -1, Some bad_ref)
|}.

Definition cl1 : Change :=
  {| Reference := "refs/changes/01/1/5"; OwnerEmail := "a@google.com";
     PresubmitTest := "all" |}.
Definition cl2 : Change :=
  {| Reference := "refs/changes/02/2/7"; OwnerEmail := "b@google.com";
     PresubmitTest := "all" |}.
Definition cl3_skip : Change :=
  {| Reference := "refs/changes/03/3/1"; OwnerEmail := "c@google.com";
     PresubmitTest := "none" |}.
Definition cl1_external : Change :=
  {| Reference := "refs/changes/01/1/5"; OwnerEmail := "a@evil.com";
     PresubmitTest := "all" |}.
Definition cl_malformed : Change :=
  {| Reference := "refs/changes/1"; OwnerEmail := "a@google.com";
     PresubmitTest := "all" |}.

(** The scripted worker: fixed answers for three of the methods, and
    for [postResults] a list of answers used up one per call (nil errors
    once the list is exhausted). *)
Record mock := {
  tests : list string;
  remove_errs : list (option error);
  add_err : option error;
  post_errs : list (option error)
}.

#[global] Instance mock_workflow : workflow mock := {|
  listTestsToRun w := (tests w, w);
  removeOutdatedBuilds _ w := (remove_errs w, w);
  addPresubmitTestBuild _ _ w := (add_err w, w);
  postResults _ _ _ w :=
    match post_errs w with
    | [] => (None, w)
    | e :: rest =>
        (e, {| tests := tests w; remove_errs := remove_errs w;
               add_err := add_err w; post_errs := rest |})
    end
|}.

Definition cancel_failed_1 : error := {| Error := "cannot cancel build 11" |}.
Definition cancel_failed_2 : error := {| Error := "cannot cancel build 12" |}.
Definition add_failed : error := {| Error := "jenkins unreachable" |}.
Definition post_failed : error := {| Error := "gerrit unreachable" |}.

Definition good_worker : mock :=
  {| tests := ["go-test"]; remove_errs := []; add_err := None;
     post_errs := [] |}.

Definition cancel_failing_worker : mock :=
  {| tests := ["go-test"];
     remove_errs := [Some cancel_failed_1; None; Some cancel_failed_2];
     add_err := None; post_errs := [] |}.

Definition add_failing_worker : mock :=
  {| tests := ["go-test"]; remove_errs := []; add_err := Some add_failed;
     post_errs := [] |}.

(** No test to run, and the second report fails. *)
Definition post_failing_worker : mock :=
  {| tests := []; remove_errs := []; add_err := None;
     post_errs := [None; Some post_failed] |}.

Definition sender (lists : list CLList) (w : mock) : clsSender mock :=
  {| clLists := lists; clsSent := 0; worker := w |}.

End Demo.

(** * Properties *)

(** ** Strings *)

Lemma length_append_string (p s : string) :
  String.length (p +:+ s) = (String.length p + String.length s)%nat.
Proof. induction p as [|a p IH]; simpl; [reflexivity | now rewrite IH]. Qed.

Lemma slice_from_append (p s : string) :
  slice_from (String.length p) (p +:+ s) = s.
Proof. induction p as [|a p IH]; simpl; [reflexivity | exact IH]. Qed.

Lemma slice_from_split (n : nat) (s : string) :
  (n <= String.length s)%nat ->
  exists p, s = p +:+ slice_from n s /\ String.length p = n.
Proof.
  revert s. induction n as [|n IH]; intros s Hn.
  - exists "". split; reflexivity.
  - destruct s as [|a s]; simpl in Hn; [lia|].
    destruct (IH s) as (p & Hs & Hp); [lia|].
    exists (String a p). split; [|simpl; congruence].
    change (String a s = String a (p +:+ slice_from n s)). congruence.
Qed.

Lemma HasSuffix_spec (s suffix : string) :
  HasSuffix s suffix = true <-> exists p, s = p +:+ suffix.
Proof.
  unfold HasSuffix. rewrite andb_true_iff, Nat.leb_le, String.eqb_eq. split.
  - intros [Hlen Heq].
    destruct (slice_from_split (String.length s - String.length suffix) s)
      as (p & Hs & _); [lia|].
    exists p. now rewrite Heq in Hs.
  - intros [p ->]. rewrite length_append_string. split; [lia|].
    replace (String.length p + String.length suffix - String.length suffix)%nat
      with (String.length p) by lia.
    apply slice_from_append.
Qed.

(** C8.  [isTrustedContributor] answers true exactly for the strings that
    end with the bytes of ["@google.com"]; nothing is normalised: an
    upper-case domain, another domain and a trailing blank are all
    untrusted, ["a@google.com"] is trusted. *)
Theorem isTrustedContributor_suffix :
  (forall emailAddress : string,
      isTrustedContributor emailAddress = true
      <-> exists p, emailAddress = p +:+ "@google.com")
  /\ isTrustedContributor "a@google.com" = true
  /\ isTrustedContributor "a@evil.com" = false
  /\ isTrustedContributor "a@GOOGLE.COM" = false
  /\ isTrustedContributor "a@google.com " = false
  /\ isTrustedContributor "a@Google.com" = false.
Proof.
  split; [|repeat split; reflexivity].
  intros emailAddress. unfold isTrustedContributor. apply HasSuffix_spec.
Qed.

(** ** The grouper *)

Section CombineFacts.
Context `{Gerrit}.

Lemma parses_inv (c : Change) :
  parses c = true ->
  ParseRefString (Reference c) = ((identity c).1, (identity c).2, None).
Proof.
  unfold parses, identity.
  destruct (ParseRefString (Reference c)) as [[cl ps] [e|]]; simpl;
    [discriminate | reflexivity].
Qed.

Lemma parses_false_inv (c : Change) :
  parses c = false ->
  exists e, (ParseRefString (Reference c)).2 = Some e.
Proof.
  unfold parses. destruct (ParseRefString (Reference c)).2 as [e|];
    [eauto | discriminate].
Qed.

(** The loop on records that all parse: every field of the result in
    closed form, and nothing written. *)
Lemma combine_loop_all_parse (l : CLList) :
  forall (result : multiPartCLInfo) (clStrings : list string),
    all_parse l = true ->
    combine_loop l result clStrings =
      ({| clMap := store_all l (clMap result);
          clString := Join (clStrings ++ map label l) ", ";
          skipPresubmitTest := skipPresubmitTest result || existsb declares_skip l;
          hasTrustedOwner := hasTrustedOwner result && forallb trusted_owner l;
          refs := refs result ++ map Reference l |}, []).
Proof.
  induction l as [|c l IH]; intros result clStrings Hall.
  - simpl. rewrite !app_nil_r, orb_false_r, andb_true_r. reflexivity.
  - simpl in Hall. apply andb_true_iff in Hall as [Hc Hl].
    cbn [combine_loop]. rewrite (parses_inv c Hc).
    rewrite IH by exact Hl. clear IH.
    unfold declares_skip, trusted_owner, label. cbn [existsb forallb map store_all fold_left].
    destruct (decide (PresubmitTest c = PresubmitTestTypeNone)) as [Hs|Hs];
      [rewrite (bool_decide_eq_true_2 _ Hs) | rewrite (bool_decide_eq_false_2 _ Hs)];
      destruct (isTrustedContributor (OwnerEmail c));
      destruct result as [m str sk tr rf]; cbn;
      rewrite <- !app_assoc; cbn [app];
      rewrite ?orb_true_r, ?andb_false_r, ?andb_true_r, ?orb_false_r;
      reflexivity.
Qed.

(** The loop on a list with a record that does not parse: the zero
    value, and the parser's first error on standard error. *)
Lemma combine_loop_parse_error (l : CLList) :
  forall (result : multiPartCLInfo) (clStrings : list string),
    all_parse l = false ->
    exists e,
      first_parse_error l = Some e /\
      combine_loop l result clStrings =
        (multiPartCLInfo_zero, [EvStderr (Error e +:+ nl)]).
Proof.
  induction l as [|c l IH]; intros result clStrings Hall; [discriminate|].
  simpl in Hall. cbn [combine_loop first_parse_error].
  destruct (parses c) eqn:Hc.
  - rewrite (parses_inv c Hc). cbn [snd].
    apply IH. exact Hall.
  - destruct (parses_false_inv c Hc) as [e He].
    destruct (ParseRefString (Reference c)) as [[cl ps] err].
    simpl in He. subst err. exists e. split; reflexivity.
Qed.

Lemma first_parse_error_all_parse (l : CLList) :
  all_parse l = true -> first_parse_error l = None.
Proof.
  induction l as [|c l IH]; intros Hall; [reflexivity|].
  simpl in Hall. apply andb_true_iff in Hall as [Hc Hl].
  cbn [first_parse_error]. rewrite (parses_inv c Hc). cbn [snd]. auto.
Qed.

Lemma combineCLList_all_parse (l : CLList) :
  all_parse l = true -> combineCLList l = (combined l, []).
Proof.
  intros Hall. unfold combineCLList.
  rewrite combine_loop_all_parse by exact Hall. reflexivity.
Qed.

Lemma combineCLList_parse_error (l : CLList) :
  all_parse l = false ->
  exists e,
    first_parse_error l = Some e /\
    combineCLList l = (multiPartCLInfo_zero, [EvStderr (Error e +:+ nl)]).
Proof. intros Hall. unfold combineCLList. now apply combine_loop_parse_error. Qed.

(** Stores into a made map keep it made, and make it non-empty. *)
Lemma store_all_made (l : CLList) :
  forall g : gmap Z Z, exists g', store_all l (Some g) = Some g' /\ (g <> ∅ -> g' <> ∅).
Proof.
  induction l as [|c l IH]; intros g.
  - exists g. split; [reflexivity | auto].
  - cbn [store_all fold_left map_store].
    destruct (IH (<[(identity c).1 := (identity c).2]> g)) as (g' & Hg' & Hne).
    exists g'. split; [exact Hg'|]. intros _. apply Hne, insert_non_empty.
Qed.

Lemma store_all_nonempty (l : CLList) :
  l <> [] -> len_map (store_all l (Some ∅)) <> 0.
Proof.
  destruct l as [|c l]; [congruence|]. intros _.
  cbn [store_all fold_left map_store].
  destruct (store_all_made l (<[(identity c).1 := (identity c).2]> ∅))
    as (g' & Hg' & Hne).
  unfold store_all in Hg'. rewrite Hg'. simpl.
  specialize (Hne (insert_non_empty _ _ _)).
  apply map_size_non_empty_iff in Hne. lia.
Qed.

End CombineFacts.

(** C2.  On records whose references all parse, the group has
    [skipPresubmitTest] set exactly when some record carries the skip
    directive, [hasTrustedOwner] set exactly when every owner is trusted,
    and as [clString] the "change/patchset" labels joined with ", " in
    input order; for the changes (1,5) and (2,7) that is "1/5, 2/7". *)
Theorem combineCLList_flags_and_label `{Gerrit} (l : CLList) :
  all_parse l = true ->
  let g := (combineCLList l).1 in
  (skipPresubmitTest g = true
   <-> exists c, In c l /\ PresubmitTest c = PresubmitTestTypeNone)
  /\ (hasTrustedOwner g = true
      <-> forall c, In c l -> isTrustedContributor (OwnerEmail c) = true)
  /\ clString g = Join (map label l) ", "
  /\ refs g = map Reference l
  /\ (forall c1 c2,
        l = [c1; c2] -> identity c1 = (1, 5) -> identity c2 = (2, 7) ->
        clString g = "1/5, 2/7").
Proof.
  intros Hall g. subst g. rewrite (combineCLList_all_parse l Hall).
  cbn [fst combined skipPresubmitTest hasTrustedOwner clString refs].
  repeat split.
  - intros Hex. apply existsb_exists in Hex as (c & Hin & Hc).
    exists c. split; [exact Hin|]. now apply bool_decide_eq_true in Hc.
  - intros (c & Hin & Hc). apply existsb_exists. exists c.
    split; [exact Hin|]. now apply bool_decide_eq_true.
  - intros Hfa c Hin. exact (proj1 (forallb_forall _ _) Hfa c Hin).
  - intros Hfa. apply forallb_forall. exact Hfa.
  - intros c1 c2 -> H1 H2. unfold label. cbn [map]. rewrite H1, H2. reflexivity.
Qed.

(** ** One pass through the loop body, branch by branch *)

Section BodyFacts.
Context `{Gerrit} {W : Type} `{!workflow W}.

Lemma log_errors_run (errs : list (option error)) (s : clsSender W) :
  log_errors errs s = (tt, s, logged errs).
Proof.
  induction errs as [|[e|] errs IH]; cbn [log_errors].
  - reflexivity.
  - unfold bind, stderr. rewrite IH. reflexivity.
  - exact IH.
Qed.

(** Lines 48-51: a group with an empty map. *)
Lemma body_empty (l : CLList) (s : clsSender W) g out :
  combineCLList l = (g, out) ->
  len_map (clMap g) = 0 ->
  sendCLsToPresubmitTest_body l s =
    (Continue, s, out ++ [EvStdout ("Skipping empty CL set" +:+ nl)]).
Proof.
  intros Hc Hlen. unfold sendCLsToPresubmitTest_body, bind, run_out.
  rewrite Hc. cbn [fst snd]. rewrite Hlen. reflexivity.
Qed.

(** Lines 54-60: the author asked to skip the tests. *)
Lemma body_skip_requested (l : CLList) (s : clsSender W) g out :
  combineCLList l = (g, out) ->
  len_map (clMap g) <> 0 ->
  skipPresubmitTest g = true ->
  let post := postResults ("Presubmit tests skipped." +:+ nl) (refs g) true
                (worker s) in
  sendCLsToPresubmitTest_body l s =
    (return_if_error post.1, with_worker s post.2,
     out ++ [EvStdout ("Skipping " +:+ clString g +:+ " because presubmit=none" +:+ nl);
             EvPostResults ("Presubmit tests skipped." +:+ nl) (refs g) true post.1]).
Proof.
  intros Hc Hlen Hskip post. subst post.
  unfold sendCLsToPresubmitTest_body, bind, run_out.
  rewrite Hc. cbn [fst snd]. apply Z.eqb_neq in Hlen. rewrite Hlen, Hskip.
  unfold stdout, call_postResults, ret.
  destruct (postResults _ _ _ _) as [err w]. reflexivity.
Qed.

(** Lines 63-72: no test to run. *)
Lemma body_no_tests (l : CLList) (s : clsSender W) g out :
  combineCLList l = (g, out) ->
  len_map (clMap g) <> 0 ->
  skipPresubmitTest g = false ->
  (listTestsToRun (worker s)).1 = [] ->
  let w1 := (listTestsToRun (worker s)).2 in
  let post := postResults ("No tests found." +:+ nl) (refs g) true w1 in
  sendCLsToPresubmitTest_body l s =
    (return_if_error post.1, with_worker s post.2,
     out ++ [EvListTestsToRun [];
             EvStdout ("Skipping " +:+ clString g +:+ " because no tests found" +:+ nl);
             EvPostResults ("No tests found." +:+ nl) (refs g) true post.1]).
Proof.
  intros Hc Hlen Hskip Htests w1 post. subst w1 post.
  unfold sendCLsToPresubmitTest_body, bind, run_out.
  rewrite Hc. cbn [fst snd]. apply Z.eqb_neq in Hlen. rewrite Hlen, Hskip.
  unfold call_listTestsToRun.
  destruct (listTestsToRun (worker s)) as [tests w1]. cbn [fst snd] in *.
  subst tests. change (len (@nil string) =? 0) with true. cbv iota.
  unfold stdout, call_postResults, ret. cbn [worker with_worker].
  destruct (postResults _ _ _ _) as [err w]. reflexivity.
Qed.

(** Lines 75-81: tests exist, but an owner is not trusted. *)
Lemma body_untrusted (l : CLList) (s : clsSender W) g out :
  combineCLList l = (g, out) ->
  len_map (clMap g) <> 0 ->
  skipPresubmitTest g = false ->
  (listTestsToRun (worker s)).1 <> [] ->
  hasTrustedOwner g = false ->
  let tests := (listTestsToRun (worker s)).1 in
  let w1 := (listTestsToRun (worker s)).2 in
  let post := postResults
                ("Tell Freenode#fuchsia to kick the presubmit tests." +:+ nl)
                (refs g) false w1 in
  sendCLsToPresubmitTest_body l s =
    (return_if_error post.1, with_worker s post.2,
     out ++ [EvListTestsToRun tests;
             EvStdout ("Skipping " +:+ clString g
                       +:+ " because the owner is an external contributor" +:+ nl);
             EvPostResults
               ("Tell Freenode#fuchsia to kick the presubmit tests." +:+ nl)
               (refs g) false post.1]).
Proof.
  intros Hc Hlen Hskip Htests Htrust tests w1 post. subst tests w1 post.
  unfold sendCLsToPresubmitTest_body, bind, run_out.
  rewrite Hc. cbn [fst snd]. apply Z.eqb_neq in Hlen. rewrite Hlen, Hskip.
  unfold call_listTestsToRun.
  destruct (listTestsToRun (worker s)) as [tests w1]. cbn [fst snd] in *.
  assert (Hnz : (len tests =? 0) = false).
  { apply Z.eqb_neq. unfold len. destruct tests; [congruence | simpl; lia]. }
  rewrite Hnz, Htrust. cbn [negb].
  unfold stdout, call_postResults, ret. cbn [worker with_worker].
  destruct (postResults _ _ _ _) as [err w]. reflexivity.
Qed.

(** Lines 84-96: the tests are started. *)
Lemma body_proceed (l : CLList) (s : clsSender W) g out :
  combineCLList l = (g, out) ->
  len_map (clMap g) <> 0 ->
  skipPresubmitTest g = false ->
  (listTestsToRun (worker s)).1 <> [] ->
  hasTrustedOwner g = true ->
  let tests := (listTestsToRun (worker s)).1 in
  let w1 := (listTestsToRun (worker s)).2 in
  let removed := removeOutdatedBuilds (clMap g) w1 in
  let added := addPresubmitTestBuild l tests removed.2 in
  sendCLsToPresubmitTest_body l s =
    (Continue, after_add l s added.1 added.2,
     out ++ [EvListTestsToRun tests;
             EvRemoveOutdatedBuilds (clMap g) removed.1]
         ++ logged removed.1
         ++ [EvStdout ("Sending " +:+ clString g +:+ " to presubmit test" +:+ nl);
             EvAddPresubmitTestBuild l tests added.1]
         ++ add_failure_line added.1).
Proof.
  intros Hc Hlen Hskip Htests Htrust tests w1 removed added.
  subst tests w1 removed added.
  unfold sendCLsToPresubmitTest_body, bind, run_out.
  rewrite Hc. cbn [fst snd]. apply Z.eqb_neq in Hlen. rewrite Hlen, Hskip.
  unfold call_listTestsToRun.
  destruct (listTestsToRun (worker s)) as [tests w1]. cbn [fst snd] in *.
  assert (Hnz : (len tests =? 0) = false).
  { apply Z.eqb_neq. unfold len. destruct tests; [congruence | simpl; lia]. }
  rewrite Hnz, Htrust. cbn [negb].
  unfold call_removeOutdatedBuilds. cbn [worker with_worker].
  destruct (removeOutdatedBuilds (clMap g) w1) as [errs w2].
  rewrite log_errors_run.
  unfold stdout, call_addPresubmitTestBuild, ret. cbn [worker with_worker fst snd].
  destruct (addPresubmitTestBuild l tests w2) as [[e|] w3]; cbn [fst snd];
    unfold stderr, add_clsSent, after_add, add_failure_line, with_worker;
    cbn [worker clLists clsSent];
    rewrite ?app_nil_r; reflexivity.
Qed.

End BodyFacts.

(** ** The loop *)

Section LoopFacts.
Context `{Gerrit} {W : Type} `{!workflow W}.

Lemma loop_cons_continue (b : CLList) (rest : list CLList)
    (s s1 : clsSender W) (t1 : list event) :
  sendCLsToPresubmitTest_body b s = (Continue, s1, t1) ->
  sendCLsToPresubmitTest_loop (b :: rest) s = then_loop s1 t1 rest.
Proof.
  intros Hb. cbn [sendCLsToPresubmitTest_loop]. unfold bind, then_loop.
  rewrite Hb. reflexivity.
Qed.

Lemma loop_cons_return (b : CLList) (rest : list CLList)
    (s s1 : clsSender W) (t1 : list event) (e : error) :
  sendCLsToPresubmitTest_body b s = (Return e, s1, t1) ->
  sendCLsToPresubmitTest_loop (b :: rest) s = (Some e, s1, t1).
Proof.
  intros Hb. cbn [sendCLsToPresubmitTest_loop]. unfold bind, ret.
  rewrite Hb. rewrite app_nil_r. reflexivity.
Qed.

Lemma loop_app (pre post : list CLList) :
  forall (s s1 : clsSender W) (t1 : list event),
    sendCLsToPresubmitTest_loop pre s = (None, s1, t1) ->
    sendCLsToPresubmitTest_loop (pre ++ post) s = then_loop s1 t1 post.
Proof.
  induction pre as [|b pre IH]; intros s s1 t1 Hpre.
  - cbn in Hpre. injection Hpre as <- <-. unfold then_loop. cbn [app].
    destruct (sendCLsToPresubmitTest_loop post s) as [[r s2] t2]. reflexivity.
  - cbn [app]. destruct (sendCLsToPresubmitTest_body b s) as [[f sb] tb] eqn:Hb.
    destruct f as [|e].
    + rewrite (loop_cons_continue b pre _ _ _ Hb) in Hpre.
      rewrite (loop_cons_continue b (pre ++ post) _ _ _ Hb).
      unfold then_loop in Hpre |- *.
      destruct (sendCLsToPresubmitTest_loop pre sb) as [[r s2] t2] eqn:Hrest.
      injection Hpre as -> -> <-.
      rewrite (IH _ _ _ Hrest). unfold then_loop.
      destruct (sendCLsToPresubmitTest_loop post s1) as [[r3 s3] t3].
      rewrite app_assoc. reflexivity.
    + rewrite (loop_cons_return b pre _ _ _ _ Hb) in Hpre. discriminate.
Qed.

(** What [combineCLList] writes is only ever a line on standard error. *)
Lemma combineCLList_out (l : CLList) (ev : event) :
  In ev (combineCLList l).2 -> exists text, ev = EvStderr text.
Proof.
  destruct (all_parse l) eqn:Hall.
  - rewrite (combineCLList_all_parse l Hall). intros [].
  - destruct (combineCLList_parse_error l Hall) as (e & _ & ->).
    intros [<- | []]. eauto.
Qed.

Lemma filter_no_match {A} (P : A -> bool) (l : list A) :
  (forall x, In x l -> P x = false) -> List.filter P l = [].
Proof.
  induction l as [|x l IH]; intros Hall; [reflexivity|].
  cbn [List.filter]. rewrite (Hall x) by (left; reflexivity).
  apply IH. intros y Hy. apply Hall. right. exact Hy.
Qed.

Lemma calls_combineCLList_out (l : CLList) : calls (combineCLList l).2 = [].
Proof.
  apply filter_no_match. intros ev Hin.
  destruct (combineCLList_out l ev Hin) as [text ->]. reflexivity.
Qed.

Lemma calls_app (t1 t2 : list event) : calls (t1 ++ t2) = calls t1 ++ calls t2.
Proof. apply List.filter_app. Qed.

Lemma calls_logged (errs : list (option error)) : calls (logged errs) = [].
Proof.
  apply filter_no_match. intros ev Hin. unfold logged in Hin.
  apply in_map_iff in Hin as (e & <- & _). reflexivity.
Qed.

Lemma calls_add_failure_line (err : option error) :
  calls (add_failure_line err) = [].
Proof. destruct err; reflexivity. Qed.

(** A group with a non-empty map comes from records that all parse. *)
Lemma nonempty_group_all_parse (l : CLList) :
  len_map (clMap (combineCLList l).1) <> 0 -> all_parse l = true.
Proof.
  intros Hlen. destruct (all_parse l) eqn:Hall; [reflexivity|].
  destruct (combineCLList_parse_error l Hall) as (e & _ & Hc).
  rewrite Hc in Hlen. now contradiction Hlen.
Qed.

End LoopFacts.

(** ** Malformed references and empty batches *)

(** C4.  When a record of the list has a reference that does not parse,
    [combineCLList] returns the zero group (nil map, no label, no
    references: nothing of the records before the bad one is kept), the
    loop body reports the batch as empty without any call to the worker,
    leaves the sender as it was, and the loop goes on with the batches
    that follow. *)
Theorem malformed_reference_discards_group `{Gerrit} {W : Type} `{!workflow W}
    (l : CLList) (s : clsSender W) :
  all_parse l = false ->
  exists e,
    first_parse_error l = Some e
    /\ combineCLList l = (multiPartCLInfo_zero, [EvStderr (Error e +:+ nl)])
    /\ clMap multiPartCLInfo_zero = None
    /\ refs multiPartCLInfo_zero = []
    /\ sendCLsToPresubmitTest_body l s =
         (Continue, s,
          [EvStderr (Error e +:+ nl); EvStdout ("Skipping empty CL set" +:+ nl)])
    /\ calls (trace_of (sendCLsToPresubmitTest_body l s)) = []
    /\ forall rest,
         sendCLsToPresubmitTest_loop (l :: rest) s =
           then_loop s [EvStderr (Error e +:+ nl);
                        EvStdout ("Skipping empty CL set" +:+ nl)] rest.
Proof.
  intros Hall. destruct (combineCLList_parse_error l Hall) as (e & Hfirst & Hc).
  assert (Hbody : sendCLsToPresubmitTest_body l s =
            (Continue, s,
             [EvStderr (Error e +:+ nl); EvStdout ("Skipping empty CL set" +:+ nl)])).
  { rewrite (body_empty l s _ _ Hc); reflexivity. }
  exists e. repeat split; try assumption.
  - rewrite Hbody. reflexivity.
  - intros rest. apply loop_cons_continue. exact Hbody.
Qed.

(** C10.  After a parse failure the group is the zero value:
    [hasTrustedOwner] false and a nil map.  For an empty list the group has
    [hasTrustedOwner] true, [skipPresubmitTest] false and a made, empty
    map.  Both maps have length 0, so in both cases the loop body makes no
    call to the worker, continues, and leaves the sender unchanged: the
    run differs only by the line [combineCLList] wrote on standard
    error. *)
Theorem zero_group_and_empty_group `{Gerrit} {W : Type} `{!workflow W}
    (l : CLList) (s : clsSender W) :
  all_parse l = false ->
  let failed := (combineCLList l).1 in
  let empty := (combineCLList []).1 in
  (failed = multiPartCLInfo_zero
   /\ hasTrustedOwner failed = false /\ clMap failed = None)
  /\ (hasTrustedOwner empty = true /\ skipPresubmitTest empty = false
      /\ clMap empty = Some ∅)
  /\ (len_map (clMap failed) = 0 /\ len_map (clMap empty) = 0)
  /\ (calls (trace_of (sendCLsToPresubmitTest_body l s)) = []
      /\ calls (trace_of (sendCLsToPresubmitTest_body [] s)) = [])
  /\ (result_of (sendCLsToPresubmitTest_body l s) = Continue
      /\ result_of (sendCLsToPresubmitTest_body [] s) = Continue)
  /\ (sender_of (sendCLsToPresubmitTest_body l s) = s
      /\ sender_of (sendCLsToPresubmitTest_body [] s) = s)
  /\ trace_of (sendCLsToPresubmitTest_body l s) =
       (combineCLList l).2 ++ trace_of (sendCLsToPresubmitTest_body [] s).
Proof.
  intros Hall failed empty. subst failed empty.
  destruct (combineCLList_parse_error l Hall) as (e & _ & Hc).
  rewrite (body_empty l s _ _ Hc) by reflexivity.
  rewrite (body_empty [] s _ _ eq_refl) by reflexivity.
  rewrite Hc. repeat split.
Qed.

(** ** The decision for one group *)

Section DecisionFacts.
Context `{Gerrit} {W : Type} `{!workflow W}.

(** The calls of a pass tell the outcome: no two outcomes show the same
    calls. *)
Lemma exhibits_functional (g : multiPartCLInfo) (l : CLList)
    (d d' : outcome) (t : list event) :
  exhibits g l d t -> exhibits g l d' t -> d = d'.
Proof.
  destruct d, d'; cbn [exhibits]; intros Hd Hd'; try reflexivity; exfalso;
    repeat match goal with
           | Hx : exists _, _ |- _ => destruct Hx
           | Hx : _ /\ _ |- _ => destruct Hx
           end;
    congruence.
Qed.

Lemma tests_nonempty_len (tests : list string) :
  tests <> [] <-> len tests <> 0.
Proof.
  unfold len. destruct tests; simpl; split; intros Hx; try congruence; lia.
Qed.

(** The four branches that follow the emptiness test, by the calls
    they make. *)
Lemma body_exhibits (l : CLList) (s : clsSender W) :
  let g := (combineCLList l).1 in
  let tests := (listTestsToRun (worker s)).1 in
  let t := trace_of (sendCLsToPresubmitTest_body l s) in
  len_map (clMap g) <> 0 ->
  (skipPresubmitTest g = true -> exhibits g l skip_by_author_request t)
  /\ (skipPresubmitTest g = false -> tests = [] ->
      exhibits g l skip_no_tests t)
  /\ (skipPresubmitTest g = false -> tests <> [] ->
      hasTrustedOwner g = false -> exhibits g l skip_untrusted t)
  /\ (skipPresubmitTest g = false -> tests <> [] ->
      hasTrustedOwner g = true -> exhibits g l proceed t).
Proof.
  intros g tests t Hlen. subst g tests t.
  pose proof (calls_combineCLList_out l) as Hout.
  destruct (combineCLList l) as [g out] eqn:Hc. cbn [fst snd] in *.
  repeat split.
  - intros Hskip. rewrite (body_skip_requested l s g out Hc Hlen Hskip).
    unfold trace_of. cbn [snd exhibits]. rewrite calls_app, Hout.
    eexists. reflexivity.
  - intros Hskip Htests. rewrite (body_no_tests l s g out Hc Hlen Hskip Htests).
    unfold trace_of. cbn [snd exhibits]. rewrite calls_app, Hout.
    eexists. reflexivity.
  - intros Hskip Htests Htrust.
    rewrite (body_untrusted l s g out Hc Hlen Hskip Htests Htrust).
    unfold trace_of. cbn [snd exhibits]. rewrite calls_app, Hout.
    eexists _, _. split; [exact Htests | reflexivity].
  - intros Hskip Htests Htrust.
    rewrite (body_proceed l s g out Hc Hlen Hskip Htests Htrust).
    unfold trace_of. cbn [snd exhibits].
    rewrite !calls_app, Hout, calls_logged, calls_add_failure_line.
    eexists _, _, _. split; [exact Htests | reflexivity].
Qed.

End DecisionFacts.

(** Closes "this outcome, not the empty one, and no other" from a proof
    that the outcome is shown. *)
Ltac decided_by Hd :=
  eexists; split; [exact Hd|]; split; [discriminate|];
  let d' := fresh "d'" in
  let Hd' := fresh "Hd'" in
  intros d' Hd'; exact (exhibits_functional _ _ d' _ _ Hd' Hd).

(** C1.  For a non-empty list of records whose references all parse, one
    pass of the loop shows exactly one outcome, chosen in this order: the
    group asks to skip - one [postResults] with verified = true and no
    query of the tests, whatever the owners are; else no test is returned -
    [postResults] with verified = true; else some owner is not trusted -
    [postResults] with verified = false; else the tests are started. *)
Theorem decision_priority `{Gerrit} {W : Type} `{!workflow W}
    (l : CLList) (s : clsSender W) :
  l <> [] ->
  all_parse l = true ->
  let g := (combineCLList l).1 in
  let tests := (listTestsToRun (worker s)).1 in
  let t := trace_of (sendCLsToPresubmitTest_body l s) in
  (skipPresubmitTest g = true -> exhibits g l skip_by_author_request t)
  /\ (skipPresubmitTest g = false -> tests = [] ->
      exhibits g l skip_no_tests t)
  /\ (skipPresubmitTest g = false -> tests <> [] ->
      hasTrustedOwner g = false -> exhibits g l skip_untrusted t)
  /\ (skipPresubmitTest g = false -> tests <> [] ->
      hasTrustedOwner g = true -> exhibits g l proceed t)
  /\ (exists d, exhibits g l d t /\ d <> skip_empty
                /\ forall d', exhibits g l d' t -> d' = d).
Proof.
  intros Hne Hall g tests t.
  assert (Hlen : len_map (clMap g) <> 0).
  { subst g. rewrite (combineCLList_all_parse l Hall).
    apply store_all_nonempty. exact Hne. }
  destruct (body_exhibits l s Hlen) as (Hskip & Hnone & Huntrusted & Hproceed).
  fold g tests t in Hskip, Hnone, Huntrusted, Hproceed.
  repeat (split; [assumption|]).
  destruct (skipPresubmitTest g) eqn:Eskip.
  { decided_by (Hskip eq_refl). }
  destruct tests as [|x tests'] eqn:Etests.
  { decided_by (Hnone eq_refl eq_refl). }
  assert (Hsome : x :: tests' <> []) by discriminate.
  destruct (hasTrustedOwner g) eqn:Etrust.
  - decided_by (Hproceed eq_refl Hsome eq_refl).
  - decided_by (Huntrusted eq_refl Hsome eq_refl).
Qed.

(** ** The path on which tests are started *)

(** C5.  On the path that starts the tests, whatever errors
    [removeOutdatedBuilds] returns, each of them is written to standard
    error, [addPresubmitTestBuild] is then called with the list and the
    tests, the pass ends with [continue], and the loop goes on with the
    batches that follow. *)
Theorem removeOutdatedBuilds_failures_not_fatal `{Gerrit} {W : Type}
    `{!workflow W} (l : CLList) (s : clsSender W) :
  let g := (combineCLList l).1 in
  let tests := (listTestsToRun (worker s)).1 in
  let removed := removeOutdatedBuilds (clMap g) (listTestsToRun (worker s)).2 in
  let added := addPresubmitTestBuild l tests removed.2 in
  let pass := sendCLsToPresubmitTest_body l s in
  len_map (clMap g) <> 0 ->
  skipPresubmitTest g = false ->
  tests <> [] ->
  hasTrustedOwner g = true ->
  (forall e, In (Some e) removed.1 ->
             In (EvStderr (Error e +:+ nl)) (trace_of pass))
  /\ trace_of pass =
       (combineCLList l).2
       ++ [EvListTestsToRun tests; EvRemoveOutdatedBuilds (clMap g) removed.1]
       ++ logged removed.1
       ++ [EvStdout ("Sending " +:+ clString g +:+ " to presubmit test" +:+ nl);
           EvAddPresubmitTestBuild l tests added.1]
       ++ add_failure_line added.1
  /\ result_of pass = Continue
  /\ forall rest,
       sendCLsToPresubmitTest_loop (l :: rest) s =
         then_loop (sender_of pass) (trace_of pass) rest.
Proof.
  intros g tests removed added pass Hlen Hskip Htests Htrust.
  subst g tests removed added pass.
  destruct (combineCLList l) as [g out] eqn:Hc. cbn [fst snd] in *.
  pose proof (body_proceed l s g out Hc Hlen Hskip Htests Htrust) as Hbody.
  cbv zeta in Hbody. rewrite Hbody.
  unfold trace_of, result_of, sender_of. cbn [fst snd].
  split; [|split; [reflexivity | split; [reflexivity|]]].
  - intros e Hin. apply in_or_app. right. apply in_or_app. right.
    apply in_or_app. left. unfold logged. apply in_map_iff.
    exists e. split; [reflexivity|].
    apply list_elem_of_In, list_elem_of_omap. exists (Some e).
    split; [apply list_elem_of_In; exact Hin | reflexivity].
  - intros rest. apply loop_cons_continue. exact Hbody.
Qed.

(** C6.  On the path that starts the tests, when [addPresubmitTestBuild]
    returns an error, the error is written to standard error as the last
    thing of the pass, [postResults] is not called, [clsSent] keeps its
    value, the pass ends with [continue], and the loop goes on with the
    batches that follow: the error is not what the run returns. *)
Theorem addPresubmitTestBuild_failure_not_fatal `{Gerrit} {W : Type}
    `{!workflow W} (l : CLList) (s : clsSender W) (e : error) :
  let g := (combineCLList l).1 in
  let tests := (listTestsToRun (worker s)).1 in
  let removed := removeOutdatedBuilds (clMap g) (listTestsToRun (worker s)).2 in
  let added := addPresubmitTestBuild l tests removed.2 in
  let pass := sendCLsToPresubmitTest_body l s in
  len_map (clMap g) <> 0 ->
  skipPresubmitTest g = false ->
  tests <> [] ->
  hasTrustedOwner g = true ->
  added.1 = Some e ->
  (exists before,
      trace_of pass =
        before ++ [EvAddPresubmitTestBuild l tests (Some e);
                   EvStderr ("addPresubmitTestBuild failed: " +:+ Error e +:+ nl)])
  /\ List.filter is_postResults (trace_of pass) = []
  /\ clsSent (sender_of pass) = clsSent s
  /\ result_of pass = Continue
  /\ (forall rest,
        sendCLsToPresubmitTest_loop (l :: rest) s =
          then_loop (sender_of pass) (trace_of pass) rest)
  /\ result_of (sendCLsToPresubmitTest_loop [l] s) = None.
Proof.
  intros g tests removed added pass Hlen Hskip Htests Htrust Hadd.
  subst g tests removed added pass.
  pose proof (combineCLList_out l) as Hout.
  destruct (combineCLList l) as [g out] eqn:Hc. cbn [fst snd] in *.
  pose proof (body_proceed l s g out Hc Hlen Hskip Htests Htrust) as Hbody.
  cbv zeta in Hbody.
  rewrite (loop_cons_continue l [] _ _ _ Hbody).
  rewrite Hbody. rewrite Hadd.
  unfold trace_of, result_of, sender_of, after_add, add_failure_line, then_loop.
  cbn [fst snd clsSent sendCLsToPresubmitTest_loop ret].
  split; [|split; [|repeat split]].
  - eexists (out ++ [_; _] ++ logged _ ++ [_]).
    rewrite <- !app_assoc. reflexivity.
  - apply filter_no_match. intros ev Hin.
    apply in_app_or in Hin as [Hin|Hin].
    { destruct (Hout ev Hin) as [text ->]. reflexivity. }
    apply in_app_or in Hin as [Hin|Hin].
    { destruct Hin as [<-|[<-|[]]]; reflexivity. }
    apply in_app_or in Hin as [Hin|Hin].
    { unfold logged in Hin. apply in_map_iff in Hin as (x & <- & _). reflexivity. }
    apply in_app_or in Hin as [Hin|Hin].
    { destruct Hin as [<-|[<-|[]]]; reflexivity. }
    destruct Hin as [<-|[]]; reflexivity.
  - intros rest. apply loop_cons_continue.
    rewrite Hbody, Hadd. reflexivity.
Qed.

(** ** Every pass is one of five

    To prove a property of the result of one pass of the loop body, it is
    enough to prove it for the five ways the body can run. *)

Section BodyElim.
Context `{Gerrit} {W : Type} `{!workflow W}.

Lemma body_elim (l : CLList) (s : clsSender W)
    (P : flow * clsSender W * list event -> Prop) :
  let g := (combineCLList l).1 in
  let out := (combineCLList l).2 in
  (len_map (clMap g) = 0 ->
   P (Continue, s, out ++ [EvStdout ("Skipping empty CL set" +:+ nl)])) ->
  (len_map (clMap g) <> 0 -> skipPresubmitTest g = true ->
   forall err w,
     postResults ("Presubmit tests skipped." +:+ nl) (refs g) true (worker s)
     = (err, w) ->
     P (return_if_error err, with_worker s w,
        out ++ [EvStdout ("Skipping " +:+ clString g
                          +:+ " because presubmit=none" +:+ nl);
                EvPostResults ("Presubmit tests skipped." +:+ nl) (refs g)
                  true err])) ->
  (len_map (clMap g) <> 0 -> skipPresubmitTest g = false ->
   forall w1, listTestsToRun (worker s) = ([], w1) ->
   forall err w,
     postResults ("No tests found." +:+ nl) (refs g) true w1 = (err, w) ->
     P (return_if_error err, with_worker s w,
        out ++ [EvListTestsToRun [];
                EvStdout ("Skipping " +:+ clString g
                          +:+ " because no tests found" +:+ nl);
                EvPostResults ("No tests found." +:+ nl) (refs g) true err])) ->
  (len_map (clMap g) <> 0 -> skipPresubmitTest g = false ->
   forall tests w1, listTestsToRun (worker s) = (tests, w1) -> tests <> [] ->
   hasTrustedOwner g = false ->
   forall err w,
     postResults ("Tell Freenode#fuchsia to kick the presubmit tests." +:+ nl)
       (refs g) false w1 = (err, w) ->
     P (return_if_error err, with_worker s w,
        out ++ [EvListTestsToRun tests;
                EvStdout ("Skipping " +:+ clString g
                          +:+ " because the owner is an external contributor"
                          +:+ nl);
                EvPostResults
                  ("Tell Freenode#fuchsia to kick the presubmit tests." +:+ nl)
                  (refs g) false err])) ->
  (len_map (clMap g) <> 0 -> skipPresubmitTest g = false ->
   forall tests w1, listTestsToRun (worker s) = (tests, w1) -> tests <> [] ->
   hasTrustedOwner g = true ->
   forall errs w2, removeOutdatedBuilds (clMap g) w1 = (errs, w2) ->
   forall err w3, addPresubmitTestBuild l tests w2 = (err, w3) ->
     P (Continue, after_add l s err w3,
        out ++ [EvListTestsToRun tests; EvRemoveOutdatedBuilds (clMap g) errs]
            ++ logged errs
            ++ [EvStdout ("Sending " +:+ clString g
                          +:+ " to presubmit test" +:+ nl);
                EvAddPresubmitTestBuild l tests err]
            ++ add_failure_line err)) ->
  P (sendCLsToPresubmitTest_body l s).
Proof.
  intros g out Hempty Hskipped Hnone Huntrusted Hproceed. subst g out.
  destruct (combineCLList l) as [g out] eqn:Hc. cbn [fst snd] in *.
  destruct (Z.eq_dec (len_map (clMap g)) 0) as [Hlen|Hlen].
  { rewrite (body_empty l s g out Hc Hlen). auto. }
  destruct (skipPresubmitTest g) eqn:Hskip.
  { rewrite (body_skip_requested l s g out Hc Hlen Hskip).
    exact (Hskipped Hlen eq_refl _ _ (surjective_pairing _)). }
  destruct (listTestsToRun (worker s)) as [tests w1] eqn:Hlist.
  destruct tests as [|x tests].
  { pose proof (body_no_tests l s g out Hc Hlen Hskip) as Hb.
    rewrite Hlist in Hb. specialize (Hb eq_refl). cbn [fst snd] in Hb.
    rewrite Hb.
    exact (Hnone Hlen eq_refl w1 eq_refl _ _ (surjective_pairing _)). }
  assert (Hsome : x :: tests <> []) by discriminate.
  destruct (hasTrustedOwner g) eqn:Htrust.
  - pose proof (body_proceed l s g out Hc Hlen Hskip) as Hb.
    rewrite Hlist in Hb. specialize (Hb Hsome Htrust). cbn [fst snd] in Hb.
    rewrite Hb.
    exact (Hproceed Hlen eq_refl _ w1 eq_refl Hsome eq_refl
             _ _ (surjective_pairing _) _ _ (surjective_pairing _)).
  - pose proof (body_untrusted l s g out Hc Hlen Hskip) as Hb.
    rewrite Hlist in Hb. specialize (Hb Hsome Htrust). cbn [fst snd] in Hb.
    rewrite Hb.
    exact (Huntrusted Hlen eq_refl _ w1 eq_refl Hsome eq_refl
             _ _ (surjective_pairing _)).
Qed.

End BodyElim.

(** ** What the traces contain *)

Section TraceFacts.
Context `{Gerrit} {W : Type} `{!workflow W}.

Lemma logged_stderr (errs : list (option error)) (ev : event) :
  In ev (logged errs) -> exists text, ev = EvStderr text.
Proof.
  unfold logged. intros Hin. apply in_map_iff in Hin as (e & <- & _). eauto.
Qed.

Lemma add_failure_line_stderr (err : option error) (ev : event) :
  In ev (add_failure_line err) -> exists text, ev = EvStderr text.
Proof. destruct err as [e|]; [intros [<-|[]]; eauto | intros []]. Qed.

Lemma filter_stderr_only (P : event -> bool) (t : list event) :
  (forall text, P (EvStderr text) = false) ->
  (forall ev, In ev t -> exists text, ev = EvStderr text) ->
  List.filter P t = [].
Proof.
  intros HP Ht. apply filter_no_match. intros ev Hin.
  destruct (Ht ev Hin) as [text ->]. apply HP.
Qed.

Lemma failed_posts_stderr_only (t : list event) :
  (forall ev, In ev t -> exists text, ev = EvStderr text) ->
  failed_posts t = [].
Proof.
  induction t as [|ev t IH]; intros Ht; [reflexivity|].
  destruct (Ht ev (or_introl eq_refl)) as [text ->].
  unfold failed_posts in *. cbn [omap list_omap failed_post].
  apply IH. intros ev' Hin. apply Ht. right. exact Hin.
Qed.

Lemma failed_posts_app (t1 t2 : list event) :
  failed_posts (t1 ++ t2) = failed_posts t1 ++ failed_posts t2.
Proof. apply omap_app. Qed.

Lemma failed_posts_none (t : list event) :
  (forall ev, In ev t -> failed_post ev = None) -> failed_posts t = [].
Proof.
  induction t as [|ev t IH]; intros Ht; [reflexivity|].
  unfold failed_posts in *. cbn [omap list_omap].
  rewrite (Ht ev (or_introl eq_refl)). apply IH.
  intros ev' Hin. apply Ht. right. exact Hin.
Qed.

(** The failed reports of one pass are none when it continues and the
    returned error when it returns; in that case the failed call is the
    last event of the pass. *)
Lemma body_failed_posts (l : CLList) (s : clsSender W) :
  let pass := sendCLsToPresubmitTest_body l s in
  failed_posts (trace_of pass) =
    match result_of pass with
    | Continue => []
    | Return e => [e]
    end
  /\ forall message clRefs verified e,
       In (EvPostResults message clRefs verified (Some e)) (trace_of pass) ->
       result_of pass = Return e
       /\ exists before,
            trace_of pass =
              before ++ [EvPostResults message clRefs verified (Some e)].
Proof.
  pose proof (combineCLList_out l) as Hout.
  apply (body_elim l s (fun pass =>
    failed_posts (trace_of pass) =
      match result_of pass with
      | Continue => []
      | Return e => [e]
      end
    /\ forall message clRefs verified e,
         In (EvPostResults message clRefs verified (Some e)) (trace_of pass) ->
         result_of pass = Return e
         /\ exists before,
              trace_of pass =
                before ++ [EvPostResults message clRefs verified (Some e)]));
    unfold trace_of, result_of; cbn [fst snd].
  - intros _. rewrite failed_posts_app, (failed_posts_stderr_only _ Hout).
    split; [reflexivity|]. intros m rf v e Hin.
    apply in_app_or in Hin as [Hin|[Hin|[]]]; [|discriminate].
    destruct (Hout _ Hin) as [text Heq]. discriminate.
  - intros _ _ err w _.
    rewrite failed_posts_app, (failed_posts_stderr_only _ Hout).
    split; [destruct err; reflexivity|]. intros m rf v e Hin.
    apply in_app_or in Hin as [Hin|[Hin|[Hin|[]]]]; [|discriminate|].
    { destruct (Hout _ Hin) as [text Heq]. discriminate. }
    injection Hin as <- <- <- ->. split; [reflexivity|].
    eexists (_ ++ [_]). rewrite <- app_assoc. reflexivity.
  - intros _ _ w1 _ err w _.
    rewrite failed_posts_app, (failed_posts_stderr_only _ Hout).
    split; [destruct err; reflexivity|]. intros m rf v e Hin.
    apply in_app_or in Hin as [Hin|[Hin|[Hin|[Hin|[]]]]]; [|discriminate..|].
    { destruct (Hout _ Hin) as [text Heq]. discriminate. }
    injection Hin as <- <- <- ->. split; [reflexivity|].
    eexists (_ ++ [_; _]). rewrite <- app_assoc. reflexivity.
  - intros _ _ tests w1 _ _ _ err w _.
    rewrite failed_posts_app, (failed_posts_stderr_only _ Hout).
    split; [destruct err; reflexivity|]. intros m rf v e Hin.
    apply in_app_or in Hin as [Hin|[Hin|[Hin|[Hin|[]]]]]; [|discriminate..|].
    { destruct (Hout _ Hin) as [text Heq]. discriminate. }
    injection Hin as <- <- <- ->. split; [reflexivity|].
    eexists (_ ++ [_; _]). rewrite <- app_assoc. reflexivity.
  - intros _ _ tests w1 _ _ _ errs w2 _ err w3 _.
    rewrite !failed_posts_app, (failed_posts_stderr_only _ Hout),
      (failed_posts_stderr_only _ (logged_stderr errs)),
      (failed_posts_stderr_only _ (add_failure_line_stderr err)).
    split; [reflexivity|]. intros m rf v e Hin.
    apply in_app_or in Hin as [Hin|Hin].
    { destruct (Hout _ Hin) as [text Heq]. discriminate. }
    apply in_app_or in Hin as [[Hin|[Hin|[]]]|Hin]; [discriminate..|].
    apply in_app_or in Hin as [Hin|Hin].
    { destruct (logged_stderr _ _ Hin) as [text Heq]. discriminate. }
    apply in_app_or in Hin as [[Hin|[Hin|[]]]|Hin]; [discriminate..|].
    destruct (add_failure_line_stderr _ _ Hin) as [text Heq]. discriminate.
Qed.

End TraceFacts.

(** ** Failed reports end the run *)

Lemma loop_failed_posts `{Gerrit} {W : Type} `{!workflow W}
    (lists : list CLList) :
  forall s : clsSender W,
    failed_posts (trace_of (sendCLsToPresubmitTest_loop lists s)) =
      match result_of (sendCLsToPresubmitTest_loop lists s) with
      | None => []
      | Some e => [e]
      end.
Proof.
  induction lists as [|b rest IH]; intros s; [reflexivity|].
  pose proof (body_failed_posts b s) as [Hposts _]. cbv zeta in Hposts.
  destruct (sendCLsToPresubmitTest_body b s) as [[f s1] t1] eqn:Hb.
  unfold trace_of, result_of in Hposts. cbn [fst snd] in Hposts.
  destruct f as [|e].
  - rewrite (loop_cons_continue b rest _ _ _ Hb). unfold then_loop.
    specialize (IH s1).
    destruct (sendCLsToPresubmitTest_loop rest s1) as [[r s2] t2].
    unfold trace_of, result_of in *. cbn [fst snd] in *.
    rewrite failed_posts_app, Hposts. exact IH.
  - rewrite (loop_cons_return b rest _ _ _ _ Hb). exact Hposts.
Qed.

(** C3.  If, with the batches before it processed without a failed report,
    a call of [postResults] made for a batch returns an error, then that
    call is the last event of the whole run, the run returns that error,
    and the sender and the trace are those reached at that call: nothing
    is done for the batches that follow.  If no call of [postResults] of
    the run returns an error, the run returns nil. *)
Theorem postResults_failure_aborts_run `{Gerrit} {W : Type} `{!workflow W}
    (s : clsSender W) :
  (forall pre b post s1 t1 message clRefs verified e,
      clLists s = pre ++ b :: post ->
      sendCLsToPresubmitTest_loop pre s = (None, s1, t1) ->
      In (EvPostResults message clRefs verified (Some e))
         (trace_of (sendCLsToPresubmitTest_body b s1)) ->
      sendCLsToPresubmitTest s =
        (Some e, sender_of (sendCLsToPresubmitTest_body b s1),
         t1 ++ trace_of (sendCLsToPresubmitTest_body b s1))
      /\ exists before,
           trace_of (sendCLsToPresubmitTest s) =
             before ++ [EvPostResults message clRefs verified (Some e)])
  /\ ((forall ev, In ev (trace_of (sendCLsToPresubmitTest s)) ->
                  failed_post ev = None) ->
      result_of (sendCLsToPresubmitTest s) = None).
Proof.
  split.
  - intros pre b post s1 t1 message clRefs verified e Hlists Hpre Hin.
    destruct (body_failed_posts b s1) as [_ Hlast].
    destruct (Hlast _ _ _ _ Hin) as [Hret [before Hbefore]].
    destruct (sendCLsToPresubmitTest_body b s1) as [[f sb] tb] eqn:Hb.
    unfold result_of, trace_of, sender_of in *. cbn [fst snd] in *. subst f.
    assert (Hrun : sendCLsToPresubmitTest s = (Some e, sb, t1 ++ tb)).
    { unfold sendCLsToPresubmitTest. rewrite Hlists.
      rewrite (loop_app pre (b :: post) s s1 t1 Hpre). unfold then_loop.
      rewrite (loop_cons_return b post _ _ _ _ Hb). reflexivity. }
    split; [exact Hrun|]. rewrite Hrun. cbn [snd].
    exists (t1 ++ before). rewrite Hbefore, app_assoc. reflexivity.
  - intros Hnone. pose proof (loop_failed_posts (clLists s) s) as Hposts.
    fold (sendCLsToPresubmitTest s) in Hposts.
    rewrite (failed_posts_none _ Hnone) in Hposts.
    destruct (result_of (sendCLsToPresubmitTest s)); [discriminate | reflexivity].
Qed.

(** ** Asking for the tests *)

(** C9.  Whether the tests are asked for depends on the group: one pass
    calls [listTestsToRun] exactly once, on the worker as it is then, when
    the group's map is not empty and the group does not ask to skip; it
    does not call it at all for an empty group or a group that asks to
    skip. *)
Theorem listTestsToRun_queried_unless_skipped `{Gerrit} {W : Type}
    `{!workflow W} (l : CLList) (s : clsSender W) :
  let g := (combineCLList l).1 in
  let t := trace_of (sendCLsToPresubmitTest_body l s) in
  List.filter is_listTestsToRun t =
    (if (len_map (clMap g) =? 0) || skipPresubmitTest g
     then []
     else [EvListTestsToRun (listTestsToRun (worker s)).1])
  /\ count_listTestsToRun t =
       if (len_map (clMap g) =? 0) || skipPresubmitTest g then 0%nat else 1%nat.
Proof.
  intros g t.
  assert (Hfilter : List.filter is_listTestsToRun t =
    (if (len_map (clMap g) =? 0) || skipPresubmitTest g
     then []
     else [EvListTestsToRun (listTestsToRun (worker s)).1])).
  { subst g t. pose proof (combineCLList_out l) as Hout.
    assert (Hquiet : forall text, is_listTestsToRun (EvStderr text) = false)
      by reflexivity.
    apply (body_elim l s (fun pass =>
      List.filter is_listTestsToRun (trace_of pass) =
        (if (len_map (clMap (combineCLList l).1) =? 0)
            || skipPresubmitTest (combineCLList l).1
         then []
         else [EvListTestsToRun (listTestsToRun (worker s)).1])));
      unfold trace_of; cbn [snd].
    - intros ->. rewrite List.filter_app, (filter_stderr_only _ _ Hquiet Hout).
      reflexivity.
    - intros Hlen -> err w _. rewrite orb_true_r.
      rewrite List.filter_app, (filter_stderr_only _ _ Hquiet Hout). reflexivity.
    - intros Hlen -> w1 -> err w _. apply Z.eqb_neq in Hlen. rewrite Hlen.
      rewrite List.filter_app, (filter_stderr_only _ _ Hquiet Hout). reflexivity.
    - intros Hlen -> tests w1 -> _ _ err w _. apply Z.eqb_neq in Hlen.
      rewrite Hlen.
      rewrite List.filter_app, (filter_stderr_only _ _ Hquiet Hout). reflexivity.
    - intros Hlen -> tests w1 -> _ _ errs w2 _ err w3 _.
      apply Z.eqb_neq in Hlen. rewrite Hlen.
      rewrite !List.filter_app, (filter_stderr_only _ _ Hquiet Hout),
        (filter_stderr_only _ _ Hquiet (logged_stderr errs)),
        (filter_stderr_only _ _ Hquiet (add_failure_line_stderr err)).
      reflexivity. }
  split; [exact Hfilter|]. unfold count_listTestsToRun. rewrite Hfilter.
  destruct ((len_map (clMap g) =? 0) || skipPresubmitTest g); reflexivity.
Qed.

(** ** Starting the tests and counting them *)

Lemma int_wrap_in_range (z : Z) :
  int_min <= z <= int_max -> int_wrap z = z.
Proof.
  unfold int_min, int_max, int_wrap. intros Hz.
  rewrite Z.mod_small by lia. lia.
Qed.

(** A group is non-empty exactly when it comes from a non-empty list of
    records that all parse. *)
Lemma nonempty_group_iff `{Gerrit} (l : CLList) :
  len_map (clMap (combineCLList l).1) <> 0 <-> l <> [] /\ all_parse l = true.
Proof.
  split.
  - intros Hlen. split; [|exact (nonempty_group_all_parse l Hlen)].
    intros ->. apply Hlen. reflexivity.
  - intros [Hne Hall]. rewrite (combineCLList_all_parse l Hall).
    apply store_all_nonempty. exact Hne.
Qed.

(** C7.  For a non-empty group whose members all have the skip directive
    unset and a trusted owner, when the worker returns some test, the
    pass shows the outcome "proceed": its calls are [listTestsToRun],
    [removeOutdatedBuilds] and one [addPresubmitTestBuild] with the list
    of records itself and the tests returned.  When that call returns nil,
    [clsSent] has grown by the number of records (as a Go [int]; by exactly
    that number when the sum fits). *)
Theorem proceed_starts_tests_and_counts `{Gerrit} {W : Type} `{!workflow W}
    (l : CLList) (s : clsSender W) :
  let g := (combineCLList l).1 in
  let tests := (listTestsToRun (worker s)).1 in
  let removed := removeOutdatedBuilds (clMap g) (listTestsToRun (worker s)).2 in
  let added := addPresubmitTestBuild l tests removed.2 in
  let pass := sendCLsToPresubmitTest_body l s in
  len_map (clMap g) <> 0 ->
  (forall c, In c l -> PresubmitTest c <> PresubmitTestTypeNone) ->
  (forall c, In c l -> isTrustedContributor (OwnerEmail c) = true) ->
  tests <> [] ->
  exhibits g l proceed (trace_of pass)
  /\ calls (trace_of pass) =
       [EvListTestsToRun tests; EvRemoveOutdatedBuilds (clMap g) removed.1;
        EvAddPresubmitTestBuild l tests added.1]
  /\ (added.1 = None ->
      clsSent (sender_of pass) = int_add (clsSent s) (len l)
      /\ (int_min <= clsSent s -> clsSent s + len l <= int_max ->
          clsSent (sender_of pass) = clsSent s + Z.of_nat (length l))).
Proof.
  intros g tests removed added pass Hlen Hunset Htrusted Htests.
  assert (Hall : all_parse l = true) by exact (nonempty_group_all_parse l Hlen).
  assert (Hskip : skipPresubmitTest g = false).
  { subst g. rewrite (combineCLList_all_parse l Hall). cbn [fst combined skipPresubmitTest].
    apply not_true_is_false. intros Hex.
    apply existsb_exists in Hex as (c & Hin & Hc).
    apply bool_decide_eq_true in Hc. exact (Hunset c Hin Hc). }
  assert (Htrust : hasTrustedOwner g = true).
  { subst g. rewrite (combineCLList_all_parse l Hall). cbn [fst combined hasTrustedOwner].
    apply forallb_forall. exact Htrusted. }
  destruct (body_exhibits l s Hlen) as (_ & _ & _ & Hproceed).
  split; [exact (Hproceed Hskip Htests Htrust)|].
  subst g tests removed added pass.
  pose proof (calls_combineCLList_out l) as Hout.
  destruct (combineCLList l) as [g out] eqn:Hc. cbn [fst snd] in *.
  pose proof (body_proceed l s g out Hc Hlen Hskip Htests Htrust) as Hbody.
  cbv zeta in Hbody. rewrite Hbody.
  unfold trace_of, sender_of. cbn [fst snd]. split.
  - rewrite !calls_app, Hout, calls_logged, calls_add_failure_line. reflexivity.
  - intros ->. unfold after_add. cbn [clsSent]. split; [reflexivity|].
    intros Hlo Hhi. unfold int_add. rewrite int_wrap_in_range; [reflexivity|].
    unfold len in *. lia.
Qed.

(** * Further properties of the grouper and of the sender *)

(** ** The map of change numbers *)

Section MapFacts.
Context `{Gerrit}.

Lemma store_all_lookup (l : CLList) :
  forall g0 : gmap Z Z,
  exists g : gmap Z Z,
    store_all l (Some g0) = Some g
    /\ (forall k, g !! k = match last_patchset l k with
                           | Some p => Some p
                           | None => g0 !! k
                           end)
    /\ (size g <= size g0 + length l)%nat.
Proof.
  induction l as [|c l IH]; intros g0.
  - exists g0. repeat split. simpl. lia.
  - cbn [store_all fold_left map_store].
    destruct (IH (<[(identity c).1 := (identity c).2]> g0)) as (g & Hg & Hlook & Hsize).
    exists g. split; [exact Hg|]. split.
    + intros k. rewrite Hlook. cbn [last_patchset].
      destruct (last_patchset l k) as [p|]; [reflexivity|].
      rewrite lookup_insert. destruct (decide ((identity c).1 = k)); reflexivity.
    + rewrite map_size_insert in Hsize. cbn [length].
      destruct (g0 !! (identity c).1); simpl in Hsize; lia.
Qed.

End MapFacts.

(** X1.  For records that all parse, the map of the group is a made map
    that holds, for each change number, the patchset of the last record
    with that number and nothing for a number no record has; it never has
    more entries than there are records. *)
Theorem clMap_last_write_wins `{Gerrit} (l : CLList) :
  all_parse l = true ->
  exists g : gmap Z Z,
    clMap (combineCLList l).1 = Some g
    /\ (forall k, g !! k = last_patchset l k)
    /\ (forall c, In c l -> is_Some (g !! (identity c).1))
    /\ (size g <= length l)%nat.
Proof.
  intros Hall. rewrite (combineCLList_all_parse l Hall). cbn [fst combined clMap].
  destruct (store_all_lookup l ∅) as (g & Hg & Hlook & Hsize).
  exists g. split; [exact Hg|].
  assert (Hlast : forall k, g !! k = last_patchset l k).
  { intros k. rewrite Hlook. destruct (last_patchset l k); [reflexivity|].
    apply lookup_empty. }
  split; [exact Hlast|]. split.
  - intros c Hin. rewrite Hlast. clear -Hin.
    induction l as [|c' l IH]; [destruct Hin|].
    cbn [last_patchset]. destruct Hin as [->|Hin].
    + destruct (last_patchset l (identity c).1); [eauto|].
      rewrite decide_True by reflexivity. eauto.
    + destruct (IH Hin) as [p ->]. eauto.
  - rewrite map_size_empty in Hsize. exact Hsize.
Qed.

(** ** Labels *)

Lemma pretty_N_char_slash_free (x : N) :
  Ascii.eqb (pretty_N_char x) "/" = false.
Proof. unfold pretty_N_char. repeat case_match; reflexivity. Qed.

Lemma pretty_N_go_slash_free (x : N) :
  forall s, slash_free s = true -> slash_free (pretty_N_go x s) = true.
Proof.
  induction (N.lt_wf_0 x) as [x _ IH]; intros s Hs.
  destruct (decide (0 < x)%N) as [Hx|Hx].
  - rewrite pretty_N_go_step by exact Hx.
    apply IH; [apply N.div_lt; lia|].
    cbn [slash_free]. rewrite pretty_N_char_slash_free. exact Hs.
  - replace x with 0%N by lia. rewrite pretty_N_go_0. exact Hs.
Qed.

Lemma pretty_N_slash_free (x : N) : slash_free (pretty x) = true.
Proof.
  unfold pretty, pretty_N. destruct (decide (x = 0%N)); [reflexivity|].
  apply pretty_N_go_slash_free. reflexivity.
Qed.

Lemma fmt_d_slash_free (z : Z) : slash_free (fmt_d z) = true.
Proof.
  unfold fmt_d, pretty, pretty_Z. destruct z as [|p|p]; [reflexivity| |].
  - apply pretty_N_slash_free.
  - cbn [String.append slash_free]. apply (pretty_N_slash_free (N.pos p)).
Qed.

Lemma append_empty_l (s : string) : "" +:+ s = s.
Proof. reflexivity. Qed.

Lemma append_String_l (c : ascii) (a s : string) :
  String c a +:+ s = String c (a +:+ s).
Proof. reflexivity. Qed.

(** Two strings without a slash, each followed by a slash and a rest, are
    equal as wholes only when the parts are. *)
Lemma slash_free_split (a b x y : string) :
  slash_free a = true -> slash_free b = true ->
  a +:+ "/" +:+ x = b +:+ "/" +:+ y -> a = b /\ x = y.
Proof.
  revert b. induction a as [|c a IH]; intros [|d b] Ha Hb Heq;
    rewrite ?append_empty_l, ?append_String_l, ?append_empty_l in Heq;
    cbn [slash_free] in Ha, Hb.
  - split; [reflexivity | congruence].
  - apply andb_true_iff in Hb as [Hd _].
    replace d with "/"%char in Hd by congruence. discriminate.
  - apply andb_true_iff in Ha as [Hc _].
    replace c with "/"%char in Hc by congruence. discriminate.
  - apply andb_true_iff in Ha as [_ Ha]. apply andb_true_iff in Hb as [_ Hb].
    assert (Hcd : c = d) by congruence.
    assert (Hrest : a +:+ "/" +:+ x = b +:+ "/" +:+ y)
      by (rewrite ?append_String_l, ?append_empty_l; congruence).
    destruct (IH b Ha Hb Hrest) as [-> ->]. split; congruence.
Qed.

(** X2.  A label determines the change and the patchset it was made
    from: two labels are equal only for the same pair of numbers. *)
Theorem formatCLString_inj (cl ps cl' ps' : Z) :
  formatCLString cl ps = formatCLString cl' ps' <-> cl = cl' /\ ps = ps'.
Proof.
  split; [|intros [-> ->]; reflexivity].
  unfold formatCLString. intros Heq.
  apply slash_free_split in Heq as [Hcl Hps]; try apply fmt_d_slash_free.
  split; [exact (pretty_Z_inj _ _ Hcl) | exact (pretty_Z_inj _ _ Hps)].
Qed.

(** ** Trust looks at the end of the address only *)

Lemma slice_from_append_skip (p s : string) (n : nat) :
  slice_from (String.length p + n) (p +:+ s) = slice_from n s.
Proof. induction p as [|a p IH]; [reflexivity | exact IH]. Qed.

(** X3.  [isTrustedContributor] reads the last eleven bytes of the address
    and nothing else: an address shorter than that is not trusted, and
    putting anything in front of an address of at least eleven bytes does
    not change the answer (so an address with a second "@" before a final
    "@google.com" is trusted). *)
Theorem isTrustedContributor_last_bytes :
  (forall s, (String.length s < 11)%nat -> isTrustedContributor s = false)
  /\ (forall p s, (11 <= String.length s)%nat ->
                  isTrustedContributor (p +:+ s) = isTrustedContributor s).
Proof.
  unfold isTrustedContributor, HasSuffix.
  change (String.length "@google.com") with 11%nat. split.
  - intros s Hlen. apply Nat.leb_gt in Hlen. rewrite Hlen. reflexivity.
  - intros p s Hlen. rewrite length_append_string.
    replace (String.length p + String.length s - 11)%nat
      with (String.length p + (String.length s - 11))%nat by lia.
    rewrite slice_from_append_skip.
    rewrite (proj2 (Nat.leb_le 11 (String.length s)) Hlen).
    rewrite (proj2 (Nat.leb_le 11 (String.length p + String.length s))) by lia.
    reflexivity.
Qed.

(** ** What a pass and a run call the worker with *)

Section CallFacts.
Context `{Gerrit} {W : Type} `{!workflow W}.

(** A group with a non-empty map, in terms of the records. *)
Lemma nonempty_group_fields (l : CLList) :
  len_map (clMap (combineCLList l).1) <> 0 ->
  l <> [] /\ all_parse l = true
  /\ skipPresubmitTest (combineCLList l).1 = existsb declares_skip l
  /\ hasTrustedOwner (combineCLList l).1 = forallb trusted_owner l
  /\ refs (combineCLList l).1 = map Reference l.
Proof.
  intros Hlen. destruct (proj1 (nonempty_group_iff l) Hlen) as [Hne Hall].
  rewrite (combineCLList_all_parse l Hall). repeat split; assumption.
Qed.

(** Every event of a run is an event of the pass for one of its lists. *)
Lemma loop_event_from_pass (lists : list CLList) :
  forall (s : clsSender W) (ev : event),
    In ev (trace_of (sendCLsToPresubmitTest_loop lists s)) ->
    exists b s1, In b lists /\ In ev (trace_of (sendCLsToPresubmitTest_body b s1)).
Proof.
  induction lists as [|b rest IH]; intros s ev Hin; [destruct Hin|].
  destruct (sendCLsToPresubmitTest_body b s) as [[f s1] t1] eqn:Hb.
  assert (Hhere : In ev t1 ->
            exists b' s', In b' (b :: rest)
                          /\ In ev (trace_of (sendCLsToPresubmitTest_body b' s'))).
  { intros Ht1. exists b, s. rewrite Hb. split; [left; reflexivity | exact Ht1]. }
  destruct f as [|e].
  - rewrite (loop_cons_continue b rest _ _ _ Hb) in Hin. unfold then_loop in Hin.
    destruct (sendCLsToPresubmitTest_loop rest s1) as [[r s2] t2] eqn:Hrest.
    unfold trace_of in Hin. cbn [snd] in Hin.
    apply in_app_or in Hin as [Hin|Hin]; [exact (Hhere Hin)|].
    destruct (IH s1 ev) as (b' & s' & Hb' & Hev).
    { rewrite Hrest. exact Hin. }
    exists b', s'. split; [right; exact Hb' | exact Hev].
  - rewrite (loop_cons_return b rest _ _ _ _ Hb) in Hin. exact (Hhere Hin).
Qed.

(** A call of [addPresubmitTestBuild] in a pass: with the list itself, for
    a non-empty group that does not ask to skip and whose owners are all
    trusted, with at least one test. *)
Lemma pass_build_inv (l : CLList) (s : clsSender W) cls tests err :
  In (EvAddPresubmitTestBuild cls tests err)
     (trace_of (sendCLsToPresubmitTest_body l s)) ->
  cls = l /\ tests <> []
  /\ len_map (clMap (combineCLList l).1) <> 0
  /\ skipPresubmitTest (combineCLList l).1 = false
  /\ hasTrustedOwner (combineCLList l).1 = true.
Proof.
  pose proof (combineCLList_out l) as Hout.
  apply (body_elim l s (fun pass =>
    In (EvAddPresubmitTestBuild cls tests err) (trace_of pass) ->
    cls = l /\ tests <> []
    /\ len_map (clMap (combineCLList l).1) <> 0
    /\ skipPresubmitTest (combineCLList l).1 = false
    /\ hasTrustedOwner (combineCLList l).1 = true));
    unfold trace_of; cbn [snd].
  - intros _ Hin. apply in_app_or in Hin as [Hin|[Hin|[]]]; [|discriminate].
    destruct (Hout _ Hin) as [text Heq]. discriminate.
  - intros _ _ e w _ Hin.
    apply in_app_or in Hin as [Hin|[Hin|[Hin|[]]]]; [|discriminate..].
    destruct (Hout _ Hin) as [text Heq]. discriminate.
  - intros _ _ w1 _ e w _ Hin.
    apply in_app_or in Hin as [Hin|[Hin|[Hin|[Hin|[]]]]]; [|discriminate..].
    destruct (Hout _ Hin) as [text Heq]. discriminate.
  - intros _ _ tests' w1 _ _ _ e w _ Hin.
    apply in_app_or in Hin as [Hin|[Hin|[Hin|[Hin|[]]]]]; [|discriminate..].
    destruct (Hout _ Hin) as [text Heq]. discriminate.
  - intros Hlen Hskip tests' w1 _ Htests Htrust errs w2 _ e w3 _ Hin.
    apply in_app_or in Hin as [Hin|Hin].
    { destruct (Hout _ Hin) as [text Heq]. discriminate. }
    apply in_app_or in Hin as [[Hin|[Hin|[]]]|Hin]; [discriminate..|].
    apply in_app_or in Hin as [Hin|Hin].
    { destruct (logged_stderr _ _ Hin) as [text Heq]. discriminate. }
    apply in_app_or in Hin as [[Hin|[Hin|[]]]|Hin]; [discriminate| |].
    + injection Hin as <- <- <-. repeat split; assumption.
    + destruct (add_failure_line_stderr _ _ Hin) as [text Heq]. discriminate.
Qed.

(** A call of [postResults] in a pass: for a non-empty group, with the
    references of the group, and with one of the three fixed pairs of
    message and verdict. *)
Lemma pass_post_inv (l : CLList) (s : clsSender W) message clRefs verified err :
  In (EvPostResults message clRefs verified err)
     (trace_of (sendCLsToPresubmitTest_body l s)) ->
  len_map (clMap (combineCLList l).1) <> 0
  /\ clRefs = refs (combineCLList l).1
  /\ ((skipPresubmitTest (combineCLList l).1 = true
       /\ message = "Presubmit tests skipped." +:+ nl /\ verified = true)
      \/ (skipPresubmitTest (combineCLList l).1 = false
          /\ message = "No tests found." +:+ nl /\ verified = true)
      \/ (skipPresubmitTest (combineCLList l).1 = false
          /\ hasTrustedOwner (combineCLList l).1 = false
          /\ message = "Tell Freenode#fuchsia to kick the presubmit tests." +:+ nl
          /\ verified = false)).
Proof.
  pose proof (combineCLList_out l) as Hout.
  apply (body_elim l s (fun pass =>
    In (EvPostResults message clRefs verified err) (trace_of pass) ->
    len_map (clMap (combineCLList l).1) <> 0
    /\ clRefs = refs (combineCLList l).1
    /\ ((skipPresubmitTest (combineCLList l).1 = true
         /\ message = "Presubmit tests skipped." +:+ nl /\ verified = true)
        \/ (skipPresubmitTest (combineCLList l).1 = false
            /\ message = "No tests found." +:+ nl /\ verified = true)
        \/ (skipPresubmitTest (combineCLList l).1 = false
            /\ hasTrustedOwner (combineCLList l).1 = false
            /\ message = "Tell Freenode#fuchsia to kick the presubmit tests." +:+ nl
            /\ verified = false))));
    unfold trace_of; cbn [snd].
  - intros _ Hin. apply in_app_or in Hin as [Hin|[Hin|[]]]; [|discriminate].
    destruct (Hout _ Hin) as [text Heq]. discriminate.
  - intros Hlen Hskip e w _ Hin.
    apply in_app_or in Hin as [Hin|[Hin|[Hin|[]]]]; [|discriminate|].
    { destruct (Hout _ Hin) as [text Heq]. discriminate. }
    injection Hin as <- <- <- <-. split; [exact Hlen|]. split; [reflexivity|].
    left. repeat split. exact Hskip.
  - intros Hlen Hskip w1 _ e w _ Hin.
    apply in_app_or in Hin as [Hin|[Hin|[Hin|[Hin|[]]]]]; [|discriminate..|].
    { destruct (Hout _ Hin) as [text Heq]. discriminate. }
    injection Hin as <- <- <- <-. split; [exact Hlen|]. split; [reflexivity|].
    right. left. repeat split. exact Hskip.
  - intros Hlen Hskip tests w1 _ _ Htrust e w _ Hin.
    apply in_app_or in Hin as [Hin|[Hin|[Hin|[Hin|[]]]]]; [|discriminate..|].
    { destruct (Hout _ Hin) as [text Heq]. discriminate. }
    injection Hin as <- <- <- <-. split; [exact Hlen|]. split; [reflexivity|].
    right. right. repeat split; assumption.
  - intros _ _ tests w1 _ _ _ errs w2 _ e w3 _ Hin.
    apply in_app_or in Hin as [Hin|Hin].
    { destruct (Hout _ Hin) as [text Heq]. discriminate. }
    apply in_app_or in Hin as [[Hin|[Hin|[]]]|Hin]; [discriminate..|].
    apply in_app_or in Hin as [Hin|Hin].
    { destruct (logged_stderr _ _ Hin) as [text Heq]. discriminate. }
    apply in_app_or in Hin as [[Hin|[Hin|[]]]|Hin]; [discriminate..|].
    destruct (add_failure_line_stderr _ _ Hin) as [text Heq]. discriminate.
Qed.

End CallFacts.

(** X4.  In a whole run, [addPresubmitTestBuild] is only ever called with
    one of the sender's lists, a non-empty one whose references all
    parse, in which every owner is trusted and no record carries the skip
    directive, and with at least one test. *)
Theorem only_trusted_lists_are_built `{Gerrit} {W : Type} `{!workflow W}
    (s : clsSender W) (cls : CLList) (tests : list string) (err : option error) :
  In (EvAddPresubmitTestBuild cls tests err) (trace_of (sendCLsToPresubmitTest s)) ->
  In cls (clLists s) /\ cls <> [] /\ all_parse cls = true /\ tests <> []
  /\ forall c, In c cls ->
       isTrustedContributor (OwnerEmail c) = true
       /\ PresubmitTest c <> PresubmitTestTypeNone.
Proof.
  intros Hin. unfold sendCLsToPresubmitTest in Hin.
  destruct (loop_event_from_pass _ _ _ Hin) as (b & s1 & Hb & Hev).
  destruct (pass_build_inv b s1 _ _ _ Hev) as (-> & Htests & Hlen & Hskip & Htrust).
  destruct (nonempty_group_fields b Hlen) as (Hne & Hall & Eskip & Etrust & _).
  rewrite Eskip in Hskip. rewrite Etrust in Htrust.
  repeat (split; [assumption|]). intros c Hc. split.
  - exact (proj1 (forallb_forall _ _) Htrust c Hc).
  - intros Hnone. assert (Hex : existsb declares_skip b = true).
    { apply existsb_exists. exists c. split; [exact Hc|].
      apply bool_decide_eq_true. exact Hnone. }
    congruence.
Qed.

(** X5.  In a whole run, every call of [postResults] is for one of the
    sender's lists, a non-empty one whose references all parse, and
    carries the references of all its records in order.  The verdict is
    false only with the message that asks for a human, for a list with an
    untrusted owner and no skip directive; it is true only with the
    "skipped" message for a list with a skip directive, or with the
    "no tests" message for a list without one. *)
Theorem reports_are_for_whole_lists `{Gerrit} {W : Type} `{!workflow W}
    (s : clsSender W) (message : string) (clRefs : list string)
    (verified : bool) (err : option error) :
  In (EvPostResults message clRefs verified err)
     (trace_of (sendCLsToPresubmitTest s)) ->
  exists cls,
    In cls (clLists s) /\ cls <> [] /\ all_parse cls = true
    /\ clRefs = map Reference cls
    /\ (verified = false ->
        message = "Tell Freenode#fuchsia to kick the presubmit tests." +:+ nl
        /\ existsb declares_skip cls = false
        /\ forallb trusted_owner cls = false)
    /\ (verified = true ->
        (message = "Presubmit tests skipped." +:+ nl
         /\ existsb declares_skip cls = true)
        \/ (message = "No tests found." +:+ nl
            /\ existsb declares_skip cls = false)).
Proof.
  intros Hin. unfold sendCLsToPresubmitTest in Hin.
  destruct (loop_event_from_pass _ _ _ Hin) as (b & s1 & Hb & Hev).
  destruct (pass_post_inv b s1 _ _ _ _ Hev) as (Hlen & Hrefs & Hcases).
  destruct (nonempty_group_fields b Hlen) as (Hne & Hall & Eskip & Etrust & Erefs).
  rewrite Eskip, Etrust in Hcases. rewrite Erefs in Hrefs.
  exists b. repeat (split; [assumption|]).
  destruct Hcases as [(Hs & -> & ->)|[(Hs & -> & ->)|(Hs & Ht & -> & ->)]].
  - split; [discriminate|]. intros _. left. split; [reflexivity | exact Hs].
  - split; [discriminate|]. intros _. right. split; [reflexivity | exact Hs].
  - split; [|discriminate]. intros _. repeat split; assumption.
Qed.

(** X6.  One pass of the loop reports on a group or starts its tests, never
    both and never twice: the calls of [postResults] and of
    [addPresubmitTestBuild] of a pass are one in all when the group's map
    is not empty, and none when it is. *)
Theorem one_report_or_build_per_pass `{Gerrit} {W : Type} `{!workflow W}
    (l : CLList) (s : clsSender W) :
  let g := (combineCLList l).1 in
  let t := trace_of (sendCLsToPresubmitTest_body l s) in
  (length (List.filter is_postResults t)
   + length (List.filter is_addPresubmitTestBuild t))%nat
  = if len_map (clMap g) =? 0 then 0%nat else 1%nat.
Proof.
  intros g t. subst g t. pose proof (combineCLList_out l) as Hout.
  assert (Hp : forall text, is_postResults (EvStderr text) = false) by reflexivity.
  assert (Ha : forall text, is_addPresubmitTestBuild (EvStderr text) = false)
    by reflexivity.
  apply (body_elim l s (fun pass =>
    (length (List.filter is_postResults (trace_of pass))
     + length (List.filter is_addPresubmitTestBuild (trace_of pass)))%nat
    = if len_map (clMap (combineCLList l).1) =? 0 then 0%nat else 1%nat));
    unfold trace_of; cbn [snd].
  - intros ->. rewrite !List.filter_app, (filter_stderr_only _ _ Hp Hout),
      (filter_stderr_only _ _ Ha Hout). reflexivity.
  - intros Hlen _ err w _. apply Z.eqb_neq in Hlen. rewrite Hlen.
    rewrite !List.filter_app, (filter_stderr_only _ _ Hp Hout),
      (filter_stderr_only _ _ Ha Hout). reflexivity.
  - intros Hlen _ w1 _ err w _. apply Z.eqb_neq in Hlen. rewrite Hlen.
    rewrite !List.filter_app, (filter_stderr_only _ _ Hp Hout),
      (filter_stderr_only _ _ Ha Hout). reflexivity.
  - intros Hlen _ tests w1 _ _ _ err w _. apply Z.eqb_neq in Hlen. rewrite Hlen.
    rewrite !List.filter_app, (filter_stderr_only _ _ Hp Hout),
      (filter_stderr_only _ _ Ha Hout). reflexivity.
  - intros Hlen _ tests w1 _ _ _ errs w2 _ err w3 _.
    apply Z.eqb_neq in Hlen. rewrite Hlen.
    rewrite !List.filter_app, (filter_stderr_only _ _ Hp Hout),
      (filter_stderr_only _ _ Ha Hout),
      (filter_stderr_only _ _ Hp (logged_stderr errs)),
      (filter_stderr_only _ _ Ha (logged_stderr errs)),
      (filter_stderr_only _ _ Hp (add_failure_line_stderr err)),
      (filter_stderr_only _ _ Ha (add_failure_line_stderr err)).
    reflexivity.
Qed.

(** ** The counter *)

Lemma int_wrap_range (z : Z) : int_min <= int_wrap z <= int_max.
Proof.
  unfold int_min, int_max, int_wrap.
  pose proof (Z.mod_pos_bound (z + 2 ^ 63) (2 ^ 64) ltac:(lia)). lia.
Qed.

Lemma int_wrap_add_wrap (a b : Z) : int_wrap (int_wrap a + b) = int_wrap (a + b).
Proof.
  unfold int_wrap. f_equal.
  replace ((a + 2 ^ 63) mod 2 ^ 64 - 2 ^ 63 + b + 2 ^ 63)
    with ((a + 2 ^ 63) mod 2 ^ 64 + b) by lia.
  rewrite Z.add_mod_idemp_l by lia. f_equal. lia.
Qed.

Section CounterFacts.
Context `{Gerrit} {W : Type} `{!workflow W}.

Lemma records_sent_app (t1 t2 : list event) :
  records_sent (t1 ++ t2) = records_sent t1 + records_sent t2.
Proof. induction t1 as [|e t1 IH]; cbn [app records_sent]; lia. Qed.

Lemma records_sent_stderr_only (t : list event) :
  (forall ev, In ev t -> exists text, ev = EvStderr text) -> records_sent t = 0.
Proof.
  induction t as [|e t IH]; intros Ht; [reflexivity|].
  destruct (Ht e (or_introl eq_refl)) as [text ->]. cbn [records_sent records_sent_by].
  apply IH. intros ev Hin. apply Ht. right. exact Hin.
Qed.

Lemma records_sent_nonneg (t : list event) : 0 <= records_sent t.
Proof.
  induction t as [|e t IH]; cbn [records_sent]; [lia|].
  assert (0 <= records_sent_by e); [|lia].
  destruct e as [| | | |cls tests [err|]|]; cbn [records_sent_by]; unfold len; lia.
Qed.

(** One pass leaves the lists alone and adds to the counter what it sent. *)
Lemma pass_accounting (l : CLList) (s : clsSender W) :
  let pass := sendCLsToPresubmitTest_body l s in
  clLists (sender_of pass) = clLists s
  /\ ((records_sent (trace_of pass) = 0 /\ clsSent (sender_of pass) = clsSent s)
      \/ clsSent (sender_of pass) = int_add (clsSent s) (records_sent (trace_of pass))).
Proof.
  pose proof (combineCLList_out l) as Hout.
  pose proof (records_sent_stderr_only _ Hout) as Hout0.
  apply (body_elim l s (fun pass =>
    clLists (sender_of pass) = clLists s
    /\ ((records_sent (trace_of pass) = 0 /\ clsSent (sender_of pass) = clsSent s)
        \/ clsSent (sender_of pass)
           = int_add (clsSent s) (records_sent (trace_of pass)))));
    unfold trace_of, sender_of; cbn [fst snd].
  - intros _. split; [reflexivity|]. left.
    rewrite records_sent_app, Hout0. split; reflexivity.
  - intros _ _ err w _. split; [reflexivity|]. left.
    rewrite records_sent_app, Hout0. split; reflexivity.
  - intros _ _ w1 _ err w _. split; [reflexivity|]. left.
    rewrite records_sent_app, Hout0. split; reflexivity.
  - intros _ _ tests w1 _ _ _ err w _. split; [reflexivity|]. left.
    rewrite records_sent_app, Hout0. split; reflexivity.
  - intros _ _ tests w1 _ _ _ errs w2 _ err w3 _. split; [reflexivity|].
    rewrite !records_sent_app, Hout0,
      (records_sent_stderr_only _ (logged_stderr errs)),
      (records_sent_stderr_only _ (add_failure_line_stderr err)).
    destruct err as [e|]; cbn [records_sent records_sent_by after_add clsSent].
    + left. split; reflexivity.
    + right. f_equal. lia.
Qed.

Lemma loop_accounting (lists : list CLList) :
  forall s : clsSender W,
    int_min <= clsSent s <= int_max ->
    let run := sendCLsToPresubmitTest_loop lists s in
    clLists (sender_of run) = clLists s
    /\ clsSent (sender_of run) = int_wrap (clsSent s + records_sent (trace_of run)).
Proof.
  induction lists as [|b rest IH]; intros s Hs run; subst run.
  - unfold sender_of, trace_of. cbn. split; [reflexivity|].
    rewrite Z.add_0_r, int_wrap_in_range by exact Hs. reflexivity.
  - destruct (pass_accounting b s) as [Hlists Hcount].
    destruct (sendCLsToPresubmitTest_body b s) as [[f s1] t1] eqn:Hb.
    unfold sender_of, trace_of in Hlists, Hcount. cbn [fst snd] in Hlists, Hcount.
    assert (Hs1 : clsSent s1 = int_wrap (clsSent s + records_sent t1)).
    { destruct Hcount as [[-> ->] | ->]; [|reflexivity].
      rewrite Z.add_0_r, int_wrap_in_range by exact Hs. reflexivity. }
    destruct f as [|e].
    + rewrite (loop_cons_continue b rest _ _ _ Hb). unfold then_loop.
      assert (Hr : int_min <= clsSent s1 <= int_max)
        by (rewrite Hs1; apply int_wrap_range).
      destruct (IH s1 Hr) as [IHlists IHcount].
      destruct (sendCLsToPresubmitTest_loop rest s1) as [[r s2] t2].
      unfold sender_of, trace_of in *. cbn [fst snd] in *.
      split; [congruence|].
      rewrite IHcount, Hs1, int_wrap_add_wrap, records_sent_app. f_equal. lia.
    + rewrite (loop_cons_return b rest _ _ _ _ Hb).
      unfold sender_of, trace_of. cbn [fst snd]. split; assumption.
Qed.

End CounterFacts.

(** X7.  A run never changes the sender's lists, and it adds to [clsSent]
    exactly the numbers of records of the calls of
    [addPresubmitTestBuild] that returned nil - as a Go [int], so up to
    wrap-around; when the sum fits, [clsSent] is that sum and has not
    decreased. *)
Theorem clsSent_counts_records_built `{Gerrit} {W : Type} `{!workflow W}
    (s : clsSender W) :
  int_min <= clsSent s <= int_max ->
  let run := sendCLsToPresubmitTest s in
  clLists (sender_of run) = clLists s
  /\ clsSent (sender_of run) = int_wrap (clsSent s + records_sent (trace_of run))
  /\ int_min <= clsSent (sender_of run) <= int_max
  /\ (clsSent s + records_sent (trace_of run) <= int_max ->
      clsSent (sender_of run) = clsSent s + records_sent (trace_of run)
      /\ clsSent s <= clsSent (sender_of run)).
Proof.
  intros Hs run. subst run. unfold sendCLsToPresubmitTest.
  destruct (loop_accounting (clLists s) s Hs) as [Hlists Hcount].
  split; [exact Hlists|]. split; [exact Hcount|].
  split; [rewrite Hcount; apply int_wrap_range|].
  intros Hfits. pose proof (records_sent_nonneg
    (trace_of (sendCLsToPresubmitTest_loop (clLists s) s))) as Hnn.
  rewrite Hcount, int_wrap_in_range by lia. lia.
Qed.

(** ** Runs in sequence *)



(** X9.  A run whose lists are all empty or contain a reference that does
    not parse makes no call to the worker, returns nil and leaves the
    sender - its counter and its worker - as it was. *)
Theorem nothing_to_process_calls_nothing `{Gerrit} {W : Type} `{!workflow W}
    (s : clsSender W) :
  (forall b, In b (clLists s) -> b = [] \/ all_parse b = false) ->
  result_of (sendCLsToPresubmitTest s) = None
  /\ sender_of (sendCLsToPresubmitTest s) = s
  /\ calls (trace_of (sendCLsToPresubmitTest s)) = [].
Proof.
  unfold sendCLsToPresubmitTest. generalize (clLists s) as lists.
  induction lists as [|b rest IH]; intros Hall; [repeat split|].
  assert (Hlen : len_map (clMap (combineCLList b).1) = 0).
  { destruct (Z.eq_dec (len_map (clMap (combineCLList b).1)) 0) as [Hz|Hnz];
      [exact Hz|].
    destruct (proj1 (nonempty_group_iff b) Hnz) as [Hne Hparse].
    destruct (Hall b (or_introl eq_refl)); congruence. }
  pose proof (calls_combineCLList_out b) as Hout.
  destruct (combineCLList b) as [g out] eqn:Hc. cbn [fst snd] in *.
  rewrite (loop_cons_continue b rest s s _ (body_empty b s g out Hc Hlen)).
  unfold then_loop.
  destruct IH as (Hr & Hs & Hcalls).
  { intros b' Hb'. apply Hall. right. exact Hb'. }
  destruct (sendCLsToPresubmitTest_loop rest s) as [[r s2] t2].
  unfold result_of, sender_of, trace_of in *. cbn [fst snd] in *.
  repeat split; try assumption.
  rewrite !calls_app, Hout, Hcalls. reflexivity.
Qed.

(** ** Combining two lists at once *)

Lemma append_assoc_string (a b c : string) : (a +:+ b) +:+ c = a +:+ b +:+ c.
Proof.
  induction a as [|x a IH]; [reflexivity|].
  rewrite !append_String_l, IH. reflexivity.
Qed.

Lemma Join_rest_app (a b : list string) (sep : string) :
  Join_rest (a ++ b) sep = Join_rest a sep +:+ Join_rest b sep.
Proof.
  induction a as [|x a IH]; [reflexivity|].
  cbn [app Join_rest]. rewrite IH, !append_assoc_string. reflexivity.
Qed.

Lemma Join_app (a b : list string) (sep : string) :
  a <> [] -> b <> [] -> Join (a ++ b) sep = Join a sep +:+ sep +:+ Join b sep.
Proof.
  destruct a as [|x a]; [congruence|]. destruct b as [|y b]; [congruence|].
  intros _ _. cbn [app Join]. rewrite Join_rest_app. cbn [Join_rest].
  rewrite !append_assoc_string. reflexivity.
Qed.

Lemma store_all_app `{Gerrit} (l1 l2 : CLList) (m : GoMap) :
  store_all (l1 ++ l2) m = store_all l2 (store_all l1 m).
Proof. unfold store_all. apply fold_left_app. Qed.

(** X10.  For two lists whose references all parse, the group of their
    concatenation is put together from the two groups: it asks to skip
    when either does, is trusted when both are, has the references of the
    first followed by those of the second, the map of the first with the
    records of the second stored on top, and - when neither list is empty -
    the two labels joined by ", ". *)
Theorem combineCLList_app `{Gerrit} (l1 l2 : CLList) :
  all_parse l1 = true ->
  all_parse l2 = true ->
  let g1 := (combineCLList l1).1 in
  let g2 := (combineCLList l2).1 in
  let g := (combineCLList (l1 ++ l2)).1 in
  skipPresubmitTest g = skipPresubmitTest g1 || skipPresubmitTest g2
  /\ hasTrustedOwner g = hasTrustedOwner g1 && hasTrustedOwner g2
  /\ refs g = refs g1 ++ refs g2
  /\ clMap g = store_all l2 (clMap g1)
  /\ (l1 <> [] -> l2 <> [] -> clString g = clString g1 +:+ ", " +:+ clString g2).
Proof.
  intros H1 H2 g1 g2 g. subst g1 g2 g.
  assert (H12 : all_parse (l1 ++ l2) = true).
  { unfold all_parse. rewrite forallb_app. fold (all_parse l1) (all_parse l2).
    rewrite H1, H2. reflexivity. }
  rewrite (combineCLList_all_parse _ H1), (combineCLList_all_parse _ H2),
    (combineCLList_all_parse _ H12).
  cbn [fst combined skipPresubmitTest hasTrustedOwner refs clMap clString].
  split; [apply existsb_app|]. split; [apply forallb_app|].
  split; [apply map_app|]. split; [apply store_all_app|].
  intros Hne1 Hne2. rewrite map_app. apply Join_app.
  - destruct l1; [congruence | discriminate].
  - destruct l2; [congruence | discriminate].
Qed.

(** ** What is cancelled *)

Lemma pass_remove_inv `{Gerrit} {W : Type} `{!workflow W}
    (l : CLList) (s : clsSender W) validCLs errs :
  In (EvRemoveOutdatedBuilds validCLs errs)
     (trace_of (sendCLsToPresubmitTest_body l s)) ->
  validCLs = clMap (combineCLList l).1
  /\ len_map (clMap (combineCLList l).1) <> 0
  /\ skipPresubmitTest (combineCLList l).1 = false
  /\ hasTrustedOwner (combineCLList l).1 = true.
Proof.
  pose proof (combineCLList_out l) as Hout.
  apply (body_elim l s (fun pass =>
    In (EvRemoveOutdatedBuilds validCLs errs) (trace_of pass) ->
    validCLs = clMap (combineCLList l).1
    /\ len_map (clMap (combineCLList l).1) <> 0
    /\ skipPresubmitTest (combineCLList l).1 = false
    /\ hasTrustedOwner (combineCLList l).1 = true));
    unfold trace_of; cbn [snd].
  - intros _ Hin. apply in_app_or in Hin as [Hin|[Hin|[]]]; [|discriminate].
    destruct (Hout _ Hin) as [text Heq]. discriminate.
  - intros _ _ e w _ Hin.
    apply in_app_or in Hin as [Hin|[Hin|[Hin|[]]]]; [|discriminate..].
    destruct (Hout _ Hin) as [text Heq]. discriminate.
  - intros _ _ w1 _ e w _ Hin.
    apply in_app_or in Hin as [Hin|[Hin|[Hin|[Hin|[]]]]]; [|discriminate..].
    destruct (Hout _ Hin) as [text Heq]. discriminate.
  - intros _ _ tests' w1 _ _ _ e w _ Hin.
    apply in_app_or in Hin as [Hin|[Hin|[Hin|[Hin|[]]]]]; [|discriminate..].
    destruct (Hout _ Hin) as [text Heq]. discriminate.
  - intros Hlen Hskip tests' w1 _ _ Htrust errs' w2 _ e w3 _ Hin.
    apply in_app_or in Hin as [Hin|Hin].
    { destruct (Hout _ Hin) as [text Heq]. discriminate. }
    apply in_app_or in Hin as [[Hin|[Hin|[]]]|Hin]; [discriminate| |].
    { injection Hin as <- <-. repeat split; assumption. }
    apply in_app_or in Hin as [Hin|Hin].
    { destruct (logged_stderr _ _ Hin) as [text Heq]. discriminate. }
    apply in_app_or in Hin as [[Hin|[Hin|[]]]|Hin]; [discriminate..|].
    destruct (add_failure_line_stderr _ _ Hin) as [text Heq]. discriminate.
Qed.

(** X11.  In a whole run, [removeOutdatedBuilds] is only ever called for
    one of the sender's lists whose references all parse, whose owners are
    all trusted and that does not ask to skip, and the map it is given
    holds, for each change number of the list, the patchset of the last
    record with that number, and nothing else. *)
Theorem outdated_builds_removed_for_latest_patchsets `{Gerrit} {W : Type}
    `{!workflow W} (s : clsSender W) (validCLs : GoMap)
    (errs : list (option error)) :
  In (EvRemoveOutdatedBuilds validCLs errs) (trace_of (sendCLsToPresubmitTest s)) ->
  exists cls (g : gmap Z Z),
    In cls (clLists s) /\ all_parse cls = true
    /\ validCLs = Some g
    /\ (forall k, g !! k = last_patchset cls k)
    /\ forallb trusted_owner cls = true
    /\ existsb declares_skip cls = false.
Proof.
  intros Hin. unfold sendCLsToPresubmitTest in Hin.
  destruct (loop_event_from_pass _ _ _ Hin) as (b & s1 & Hb & Hev).
  destruct (pass_remove_inv b s1 _ _ Hev) as (-> & Hlen & Hskip & Htrust).
  destruct (nonempty_group_fields b Hlen) as (_ & Hall & Eskip & Etrust & _).
  rewrite Eskip in Hskip. rewrite Etrust in Htrust.
  rewrite (combineCLList_all_parse b Hall). cbn [fst combined clMap].
  destruct (store_all_lookup b ∅) as (g & Hg & Hlook & _).
  exists b, g. repeat (split; [assumption|]). split; [|split; assumption].
  intros k. rewrite Hlook. destruct (last_patchset b k); [reflexivity|].
  apply lookup_empty.
Qed.

(** * The theorems at concrete inputs

    Runs of the program on the records and scripted workers of [Demo]. *)

Section Runs.
#[local] Existing Instance Demo.gerrit.

Lemma combineCLList_flags_and_label_witness :
  all_parse [Demo.cl1; Demo.cl2] = true
  /\ clString (combineCLList [Demo.cl1; Demo.cl2]).1 = "1/5, 2/7".
Proof.
  split; [reflexivity|].
  exact (proj2 (proj2 (proj2 (proj2
           (combineCLList_flags_and_label [Demo.cl1; Demo.cl2] eq_refl))))
           Demo.cl1 Demo.cl2 eq_refl eq_refl eq_refl).
Defined.

Lemma malformed_reference_discards_group_witness :
  all_parse [Demo.cl_malformed; Demo.cl1] = false
  /\ sendCLsToPresubmitTest_loop
       [[Demo.cl_malformed; Demo.cl1]; [Demo.cl1]]
       (Demo.sender [] Demo.good_worker)
     = then_loop (Demo.sender [] Demo.good_worker)
         [EvStderr (Error Demo.bad_ref +:+ nl);
          EvStdout ("Skipping empty CL set" +:+ nl)] [[Demo.cl1]].
Proof.
  split; [reflexivity|].
  destruct (malformed_reference_discards_group
              [Demo.cl_malformed; Demo.cl1] (Demo.sender [] Demo.good_worker)
              eq_refl) as (e & Hfirst & _ & _ & _ & _ & _ & Hloop).
  injection Hfirst as <-. apply Hloop.
Defined.

Lemma zero_group_and_empty_group_witness :
  all_parse [Demo.cl1; Demo.cl_malformed] = false
  /\ hasTrustedOwner (combineCLList [Demo.cl1; Demo.cl_malformed]).1 = false
  /\ hasTrustedOwner (combineCLList (@nil (@Change Demo.gerrit))).1 = true
  /\ sender_of (sendCLsToPresubmitTest_body [Demo.cl1; Demo.cl_malformed]
                  (Demo.sender [] Demo.good_worker))
     = Demo.sender [] Demo.good_worker.
Proof.
  pose proof (zero_group_and_empty_group [Demo.cl1; Demo.cl_malformed]
                (Demo.sender [] Demo.good_worker) eq_refl) as Hz.
  cbv zeta in Hz.
  destruct Hz as ((_ & Hf & _) & (He & _) & _ & _ & _ & (Hs & _) & _).
  split; [reflexivity|]. split; [exact Hf|]. split; [exact He | exact Hs].
Defined.

Lemma decision_priority_witness :
  [Demo.cl3_skip; Demo.cl1_external] <> []
  /\ all_parse [Demo.cl3_skip; Demo.cl1_external] = true
  /\ hasTrustedOwner (combineCLList [Demo.cl3_skip; Demo.cl1_external]).1 = false
  /\ exhibits (combineCLList [Demo.cl3_skip; Demo.cl1_external]).1
       [Demo.cl3_skip; Demo.cl1_external] skip_by_author_request
       (trace_of (sendCLsToPresubmitTest_body
                    [Demo.cl3_skip; Demo.cl1_external]
                    (Demo.sender [] Demo.good_worker))).
Proof.
  split; [discriminate|]. split; [reflexivity|]. split; [reflexivity|].
  exact (proj1 (decision_priority [Demo.cl3_skip; Demo.cl1_external]
                  (Demo.sender [] Demo.good_worker)
                  ltac:(discriminate) eq_refl) eq_refl).
Defined.

Lemma removeOutdatedBuilds_failures_not_fatal_witness :
  (removeOutdatedBuilds (clMap (combineCLList [Demo.cl1; Demo.cl2]).1)
     (listTestsToRun Demo.cancel_failing_worker).2).1
  = [Some Demo.cancel_failed_1; None; Some Demo.cancel_failed_2]
  /\ In (EvStderr (Error Demo.cancel_failed_1 +:+ nl))
       (trace_of (sendCLsToPresubmitTest_body [Demo.cl1; Demo.cl2]
                    (Demo.sender [] Demo.cancel_failing_worker)))
  /\ In (EvStderr (Error Demo.cancel_failed_2 +:+ nl))
       (trace_of (sendCLsToPresubmitTest_body [Demo.cl1; Demo.cl2]
                    (Demo.sender [] Demo.cancel_failing_worker)))
  /\ result_of (sendCLsToPresubmitTest_body [Demo.cl1; Demo.cl2]
                  (Demo.sender [] Demo.cancel_failing_worker)) = Continue.
Proof.
  pose proof (removeOutdatedBuilds_failures_not_fatal [Demo.cl1; Demo.cl2]
                (Demo.sender [] Demo.cancel_failing_worker)
                ltac:(vm_compute; discriminate) eq_refl
                ltac:(discriminate) eq_refl) as (Hlogged & _ & Hflow & _).
  split; [reflexivity|].
  split; [apply Hlogged; left; reflexivity|].
  split; [apply Hlogged; right; right; left; reflexivity | exact Hflow].
Defined.

Lemma addPresubmitTestBuild_failure_not_fatal_witness :
  (addPresubmitTestBuild [Demo.cl1; Demo.cl2] ["go-test"]
     Demo.add_failing_worker).1 = Some Demo.add_failed
  /\ clsSent (sender_of (sendCLsToPresubmitTest_body [Demo.cl1; Demo.cl2]
                           (Demo.sender [] Demo.add_failing_worker))) = 0
  /\ result_of (sendCLsToPresubmitTest_loop [[Demo.cl1; Demo.cl2]]
                  (Demo.sender [] Demo.add_failing_worker)) = None
  /\ List.filter is_postResults
       (trace_of (sendCLsToPresubmitTest_body [Demo.cl1; Demo.cl2]
                    (Demo.sender [] Demo.add_failing_worker))) = [].
Proof.
  split; [reflexivity|].
  pose proof (addPresubmitTestBuild_failure_not_fatal [Demo.cl1; Demo.cl2]
                (Demo.sender [] Demo.add_failing_worker) Demo.add_failed
                ltac:(vm_compute; discriminate) eq_refl
                ltac:(discriminate) eq_refl eq_refl)
    as (_ & Hpost & Hsent & _ & _ & Hrun).
  split; [exact Hsent|]. split; [exact Hrun | exact Hpost].
Defined.

Lemma postResults_failure_aborts_run_witness :
  sendCLsToPresubmitTest
    (Demo.sender [[Demo.cl1]; [Demo.cl2]; [Demo.cl1; Demo.cl2]]
       Demo.post_failing_worker)
  = (Some Demo.post_failed,
     sender_of (sendCLsToPresubmitTest_body [Demo.cl2]
                  (sender_of (sendCLsToPresubmitTest_body [Demo.cl1]
                     (Demo.sender [[Demo.cl1]; [Demo.cl2]; [Demo.cl1; Demo.cl2]]
                        Demo.post_failing_worker)))),
     trace_of (sendCLsToPresubmitTest_body [Demo.cl1]
                 (Demo.sender [[Demo.cl1]; [Demo.cl2]; [Demo.cl1; Demo.cl2]]
                    Demo.post_failing_worker))
     ++ trace_of (sendCLsToPresubmitTest_body [Demo.cl2]
                    (sender_of (sendCLsToPresubmitTest_body [Demo.cl1]
                       (Demo.sender [[Demo.cl1]; [Demo.cl2]; [Demo.cl1; Demo.cl2]]
                          Demo.post_failing_worker))))).
Proof.
  exact (proj1 (proj1 (postResults_failure_aborts_run
                  (Demo.sender [[Demo.cl1]; [Demo.cl2]; [Demo.cl1; Demo.cl2]]
                     Demo.post_failing_worker))
           [[Demo.cl1]] [Demo.cl2] [[Demo.cl1; Demo.cl2]] _ _
           ("No tests found." +:+ nl) ["refs/changes/02/2/7"] true
           Demo.post_failed eq_refl eq_refl
           ltac:(vm_compute; right; right; left; reflexivity))).
Defined.

Lemma proceed_starts_tests_and_counts_witness :
  len_map (clMap (combineCLList [Demo.cl1; Demo.cl2]).1) <> 0
  /\ clsSent (sender_of (sendCLsToPresubmitTest_body [Demo.cl1; Demo.cl2]
                           (Demo.sender [] Demo.good_worker))) = 2.
Proof.
  assert (Hlen : len_map (clMap (combineCLList [Demo.cl1; Demo.cl2]).1) <> 0)
    by (vm_compute; discriminate).
  split; [exact Hlen|].
  assert (Hunset : forall c, In c [Demo.cl1; Demo.cl2] ->
                             PresubmitTest c <> PresubmitTestTypeNone).
  { intros c [<-|[<-|[]]] Heq; vm_compute in Heq; discriminate Heq. }
  assert (Htrusted : forall c, In c [Demo.cl1; Demo.cl2] ->
                               isTrustedContributor (OwnerEmail c) = true).
  { intros c [<-|[<-|[]]]; reflexivity. }
  assert (Htests : (listTestsToRun (worker (Demo.sender [] Demo.good_worker))).1
                   <> []) by (vm_compute; discriminate).
  destruct (proceed_starts_tests_and_counts [Demo.cl1; Demo.cl2]
              (Demo.sender [] Demo.good_worker) Hlen Hunset Htrusted Htests)
    as (_ & _ & Hcount).
  destruct (Hcount eq_refl) as [_ Hexact].
  apply Hexact; vm_compute; discriminate.
Defined.

(** Not every group has its tests queried: for a group that asks to
    skip, the group is reported on and [listTestsToRun] is not called. *)
Lemma listTestsToRun_not_queried_when_skip_requested :
  exhibits (combineCLList [Demo.cl3_skip]).1 [Demo.cl3_skip]
    skip_by_author_request
    (trace_of (sendCLsToPresubmitTest_body [Demo.cl3_skip]
                 (Demo.sender [[Demo.cl3_skip]] Demo.good_worker)))
  /\ count_listTestsToRun
       (trace_of (sendCLsToPresubmitTest
                    (Demo.sender [[Demo.cl3_skip]] Demo.good_worker))) = 0%nat
  /\ count_listTestsToRun
       (trace_of (sendCLsToPresubmitTest
                    (Demo.sender [[Demo.cl3_skip]] Demo.good_worker))) <> 1%nat.
Proof.
  split; [eexists; reflexivity|]. split; [reflexivity | discriminate].
Qed.

Lemma clMap_last_write_wins_witness :
  all_parse [Demo.cl1; Demo.cl2; Demo.cl1_external] = true
  /\ exists g : gmap Z Z,
       clMap (combineCLList [Demo.cl1; Demo.cl2; Demo.cl1_external]).1 = Some g
       /\ g !! 1 = Some 5 /\ g !! 2 = Some 7 /\ g !! 3 = None
       /\ (size g <= 3)%nat.
Proof.
  split; [reflexivity|].
  destruct (clMap_last_write_wins [Demo.cl1; Demo.cl2; Demo.cl1_external] eq_refl)
    as (g & Hg & Hlook & _ & Hsize).
  exists g. split; [exact Hg|].
  split; [exact (Hlook 1)|]. split; [exact (Hlook 2)|].
  split; [exact (Hlook 3) | exact Hsize].
Defined.

Lemma isTrustedContributor_last_bytes_witness :
  isTrustedContributor "@google.co" = false
  /\ isTrustedContributor ("eve@evil.com" +:+ "@google.com") = true.
Proof.
  split.
  - apply (proj1 isTrustedContributor_last_bytes). simpl. lia.
  - rewrite (proj2 isTrustedContributor_last_bytes) by (simpl; lia).
    reflexivity.
Defined.

Lemma only_trusted_lists_are_built_witness :
  In [Demo.cl1; Demo.cl2]
     [[Demo.cl1_external]; [Demo.cl3_skip]; [Demo.cl1; Demo.cl2]]
  /\ forall c, In c [Demo.cl1; Demo.cl2] ->
       isTrustedContributor (OwnerEmail c) = true
       /\ PresubmitTest c <> PresubmitTestTypeNone.
Proof.
  destruct (only_trusted_lists_are_built
              (Demo.sender [[Demo.cl1_external]; [Demo.cl3_skip];
                            [Demo.cl1; Demo.cl2]] Demo.good_worker)
              [Demo.cl1; Demo.cl2] ["go-test"] None)
    as (Hin & _ & _ & _ & Hmembers).
  { vm_compute. repeat (first [left; reflexivity | right]). }
  split; [exact Hin | exact Hmembers].
Defined.

Lemma reports_are_for_whole_lists_witness :
  exists cls,
    In cls [[Demo.cl1_external; Demo.cl2]]
    /\ ["refs/changes/01/1/5"; "refs/changes/02/2/7"] = map Reference cls
    /\ forallb trusted_owner cls = false.
Proof.
  destruct (reports_are_for_whole_lists
              (Demo.sender [[Demo.cl1_external; Demo.cl2]] Demo.good_worker)
              ("Tell Freenode#fuchsia to kick the presubmit tests." +:+ nl)
              ["refs/changes/01/1/5"; "refs/changes/02/2/7"] false None)
    as (cls & Hin & _ & _ & Hrefs & Hfalse & _).
  { vm_compute. repeat (first [left; reflexivity | right]). }
  exists cls. split; [exact Hin|]. split; [exact Hrefs|].
  exact (proj2 (proj2 (Hfalse eq_refl))).
Defined.

Lemma clsSent_counts_records_built_witness :
  clsSent (sender_of (sendCLsToPresubmitTest
             (Demo.sender [[Demo.cl1; Demo.cl2]; [Demo.cl3_skip]; [Demo.cl1]]
                Demo.good_worker))) = 0 + 3.
Proof.
  destruct (clsSent_counts_records_built
              (Demo.sender [[Demo.cl1; Demo.cl2]; [Demo.cl3_skip]; [Demo.cl1]]
                 Demo.good_worker)) as (_ & _ & _ & Hexact).
  { vm_compute. split; discriminate. }
  destruct Hexact as [Hsum _]; [vm_compute; discriminate|].
  exact Hsum.
Defined.

Lemma nothing_to_process_calls_nothing_witness :
  sender_of (sendCLsToPresubmitTest
               (Demo.sender [[]; [Demo.cl_malformed; Demo.cl1]; []]
                  Demo.good_worker))
  = Demo.sender [[]; [Demo.cl_malformed; Demo.cl1]; []] Demo.good_worker
  /\ calls (trace_of (sendCLsToPresubmitTest
               (Demo.sender [[]; [Demo.cl_malformed; Demo.cl1]; []]
                  Demo.good_worker))) = [].
Proof.
  destruct (nothing_to_process_calls_nothing
              (Demo.sender [[]; [Demo.cl_malformed; Demo.cl1]; []]
                 Demo.good_worker)) as (_ & Hs & Hcalls).
  { intros b [<-|[<-|[<-|[]]]];
      [left; reflexivity | right; reflexivity | left; reflexivity]. }
  split; [exact Hs | exact Hcalls].
Defined.

Lemma combineCLList_app_witness :
  clString (combineCLList ([Demo.cl1; Demo.cl2] ++ [Demo.cl3_skip])).1
  = "1/5, 2/7" +:+ ", " +:+ "3/1"
  /\ skipPresubmitTest
       (combineCLList ([Demo.cl1; Demo.cl2] ++ [Demo.cl3_skip])).1 = true.
Proof.
  destruct (combineCLList_app [Demo.cl1; Demo.cl2] [Demo.cl3_skip]
              eq_refl eq_refl) as (Hskip & _ & _ & _ & Hlabel).
  split; [exact (Hlabel ltac:(discriminate) ltac:(discriminate)) | exact Hskip].
Defined.

Lemma outdated_builds_removed_for_latest_patchsets_witness :
  exists cls (g : gmap Z Z),
    In cls [[Demo.cl3_skip]; [Demo.cl1; Demo.cl2]]
    /\ clMap (combineCLList [Demo.cl1; Demo.cl2]).1 = Some g
    /\ forall k, g !! k = last_patchset cls k.
Proof.
  destruct (outdated_builds_removed_for_latest_patchsets
              (Demo.sender [[Demo.cl3_skip]; [Demo.cl1; Demo.cl2]]
                 Demo.good_worker)
              (clMap (combineCLList [Demo.cl1; Demo.cl2]).1) [])
    as (cls & g & Hin & _ & Hg & Hlook & _).
  { vm_compute. repeat (first [left; reflexivity | right]). }
  exists cls, g. split; [exact Hin|]. split; [exact Hg | exact Hlook].
Defined.

End Runs.
